(** * Data-glove visualizer: the sensor-to-model pipeline of [main.py]

    A shallow embedding of the class [DataGloveVisualizer]: the angle-line
    parser, the calibration map, the two definitions of the serial read
    loop, the connection toggle and the refresh scheduling, followed by the
    properties that the specification states about them.

    Modelling conventions.
    - Text is ASCII ([string]); [bytes.decode('utf-8')] is the identity on it.
    - A Python [float] is a [pyfloat]: a finite value, one of the two
      infinities, or NaN.  Finite values are exact rationals: rounding to
      the nearest double is not modelled, overflow is (an arithmetic result
      too large for a double is an infinity); comparisons, the infinities
      and NaN follow IEEE 754 as Python exposes it ([nan] compares false
      with everything, a division by zero raises [ZeroDivisionError]).
    - Exceptions are values of [exn]; a computation that can raise returns
      [result A].
    - The object [self] is the record [visualizer]; every method takes the
      record and returns the updated one. *)

From Stdlib Require Import Ascii QArith Qcanon Lqa.
From stdpp Require Import base strings list gmap numbers.

Local Open Scope Z_scope.

(* ===================================================================== *)
(** * Python strings *)
(* ===================================================================== *)

Module PyStr.

(** [str.isspace] on ASCII: TAB..CR, FS..US and the blank. *)
Definition is_space (c : Ascii.ascii) : bool :=
  let n := Ascii.nat_of_ascii c in
  ((9 <=? n) && (n <=? 13) || (28 <=? n) && (n <=? 32))%nat.

Definition is_digit (c : Ascii.ascii) : bool :=
  let n := Ascii.nat_of_ascii c in ((48 <=? n) && (n <=? 57))%nat.

Definition is_empty (s : string) : bool :=
  match s with EmptyString => true | String _ _ => false end.

Fixpoint lstrip (s : string) : string :=
  match s with
  | EmptyString => EmptyString
  | String c s' => if is_space c then lstrip s' else s
  end.

Fixpoint rstrip (s : string) : string :=
  match s with
  | EmptyString => EmptyString
  | String c s' =>
      let r := rstrip s' in
      if is_empty r && is_space c then EmptyString else String c r
  end.

(** [s.strip()] *)
Definition strip (s : string) : string := rstrip (lstrip s).

(** [s.split(sep)] for a one-character separator: never the empty list. *)
Fixpoint split (sep : Ascii.ascii) (s : string) : list string :=
  match s with
  | EmptyString => [EmptyString]
  | String c s' =>
      if Ascii.eqb c sep then EmptyString :: split sep s'
      else match split sep s' with
           | h :: t => String c h :: t
           | [] => [String c EmptyString]
           end
  end.

(** [sep in s] *)
Fixpoint contains (sep : Ascii.ascii) (s : string) : bool :=
  match s with
  | EmptyString => false
  | String c s' => Ascii.eqb c sep || contains sep s'
  end.

(** [s.split(sep, 1)] when [sep in s]: the text before the first
    separator and the text after it. *)
Fixpoint split_once (sep : Ascii.ascii) (s : string) : option (string * string) :=
  match s with
  | EmptyString => None
  | String c s' =>
      if Ascii.eqb c sep then Some (EmptyString, s')
      else match split_once sep s' with
           | Some (h, t) => Some (String c h, t)
           | None => None
           end
  end.

(** [s.startswith(p)] *)
Definition startswith (p s : string) : bool := String.prefix p s.

(** The longest run of digits at the head of [s] (the greedy [\d+]). *)
Fixpoint take_digits (s : string) : string :=
  match s with
  | EmptyString => EmptyString
  | String c s' => if is_digit c then String c (take_digits s') else EmptyString
  end.

(** One match of [ch\d:(\d+)] anchored at the head of [s]: the captured
    digits. *)
Definition match_ch (s : string) : option string :=
  match s with
  | String c1 (String c2 (String d (String c4 rest))) =>
      if Ascii.eqb c1 "c"%char && Ascii.eqb c2 "h"%char && is_digit d
         && Ascii.eqb c4 ":"%char
      then match take_digits rest with
           | EmptyString => None
           | ds => Some ds
           end
      else None
  | _ => None
  end.

(** [re.findall(r'ch\d:(\d+)', s)]: the non-overlapping matches from left
    to right.  [skip] counts the characters of the current match that are
    still to be passed over. *)
Fixpoint findall_from (skip : nat) (s : string) : list string :=
  match s with
  | EmptyString => []
  | String _ s' =>
      match skip with
      | S k => findall_from k s'
      | O =>
          match match_ch s with
          | Some ds => ds :: findall_from (3 + String.length ds) s'
          | None => findall_from 0 s'
          end
      end
  end.

Definition findall_ch (s : string) : list string := findall_from 0 s.

(** [int(v)] on a string of decimal digits (what [(\d+)] captures), of
    at most 4300 of them: on a longer one [int] raises [ValueError]. *)
Definition int_of_digits (s : string) : Z :=
  fold_left (fun acc c => 10 * acc + (Z.of_nat (Ascii.nat_of_ascii c) - 48))
            (String.list_ascii_of_string s) 0.

End PyStr.

(* ===================================================================== *)
(** * Exceptions *)
(* ===================================================================== *)

Inductive exn : Set :=
  | IndexError
  | ValueError
  | ZeroDivisionError
  | AttributeError
  | SerialException.

#[export] Instance exn_eq_dec : EqDecision exn.
Proof. solve_decision. Defined.

(** A computation that either raises or returns. *)
Definition result (A : Type) : Type := (exn + A)%type.

#[export] Instance result_ret : MRet result := fun _ a => inr a.
#[export] Instance result_bind : MBind result := fun _ _ k m =>
  match m with
  | inl e => inl e
  | inr a => k a
  end.

(** [return a] and [raise e]. *)
Abbreviation ret a := (@inr exn _ a) (only parsing).
Abbreviation raise e := (@inl exn _ e) (only parsing).

(** Run [f] over a list from left to right, stopping at the first
    exception (a [for] loop or a list comprehension whose body can raise). *)
Fixpoint mapM {A B} (f : A -> result B) (l : list A) : result (list B) :=
  match l with
  | [] => ret []
  | a :: l' => b ← f a; bs ← mapM f l'; ret (b :: bs)
  end.

(** [enumerate(l)] *)
Definition enumerate {A} (l : list A) : list (nat * A) :=
  zip (seq 0 (length l)) l.

(* ===================================================================== *)
(** * Python floats *)
(* ===================================================================== *)

Inductive pyfloat : Set :=
  | Fin (q : Qc)
  | PInf
  | NInf
  | NaN.

#[export] Instance pyfloat_eq_dec : EqDecision pyfloat.
Proof. solve_decision. Defined.

Module PyFloat.

Definition of_Z (z : Z) : pyfloat := Fin (Qc_of_Z z).

(** [x == y] *)
Definition eqb (x y : pyfloat) : bool :=
  match x, y with
  | Fin a, Fin b => bool_decide (a = b)
  | PInf, PInf => true
  | NInf, NInf => true
  | _, _ => false
  end.

(** [x < y] *)
Definition ltb (x y : pyfloat) : bool :=
  match x, y with
  | NaN, _ | _, NaN => false
  | Fin a, Fin b => bool_decide (a < b)%Qc
  | NInf, (Fin _ | PInf) => true
  | Fin _, PInf => true
  | _, _ => false
  end.

(** [x <= y] *)
Definition leb (x y : pyfloat) : bool := ltb x y || eqb x y.

(** The least magnitude that rounds to an infinity, [2^1024 - 2^970]:
    half a unit in the last place above the largest double. *)
Definition overflow_threshold : Qc := Qc_of_Z (2 ^ 1024 - 2 ^ 970).

(** The double for an arithmetic result whose exact value is [q]: an
    infinity when [q] is out of range. *)
Definition finite (q : Qc) : pyfloat :=
  if bool_decide (overflow_threshold <= q)%Qc then PInf
  else if bool_decide (q <= - overflow_threshold)%Qc then NInf
  else Fin q.

(** [x - y] *)
Definition sub (x y : pyfloat) : pyfloat :=
  match x, y with
  | NaN, _ | _, NaN => NaN
  | Fin a, Fin b => finite (a - b)%Qc
  | Fin _, PInf => NInf
  | Fin _, NInf => PInf
  | PInf, PInf => NaN
  | PInf, _ => PInf
  | NInf, NInf => NaN
  | NInf, _ => NInf
  end.

(** The sign of an infinite product or quotient. *)
Definition signed_inf (negative : bool) : pyfloat :=
  if negative then NInf else PInf.

Definition is_neg (q : Qc) : bool := bool_decide (q < 0)%Qc.
Definition is_zero (q : Qc) : bool := bool_decide (q = 0)%Qc.

(** [x * y] *)
Definition mul (x y : pyfloat) : pyfloat :=
  match x, y with
  | NaN, _ | _, NaN => NaN
  | Fin a, Fin b => finite (a * b)%Qc
  | Fin a, PInf | PInf, Fin a => if is_zero a then NaN else signed_inf (is_neg a)
  | Fin a, NInf | NInf, Fin a => if is_zero a then NaN else signed_inf (negb (is_neg a))
  | PInf, PInf | NInf, NInf => PInf
  | PInf, NInf | NInf, PInf => NInf
  end.

(** The quotient where the divisor is not zero. *)
Definition quot (x y : pyfloat) : pyfloat :=
  match x, y with
  | NaN, _ | _, NaN => NaN
  | Fin a, Fin b => finite (a / b)%Qc
  | Fin _, (PInf | NInf) => Fin 0%Qc
  | PInf, Fin b => signed_inf (is_neg b)
  | NInf, Fin b => signed_inf (negb (is_neg b))
  | _, _ => NaN
  end.

(** [x / y]: Python raises on a zero divisor, whatever the dividend. *)
Definition div (x y : pyfloat) : result pyfloat :=
  match y with
  | Fin b => if is_zero b then raise ZeroDivisionError else ret (quot x y)
  | _ => ret (quot x y)
  end.

(** [min(a, b)]: the first argument unless the second is smaller. *)
Definition py_min (a b : pyfloat) : pyfloat := if ltb b a then b else a.

(** [max(a, b)]: the first argument unless the second is greater. *)
Definition py_max (a b : pyfloat) : pyfloat := if ltb a b then b else a.

End PyFloat.

(* ===================================================================== *)
(** * The object state *)
(* ===================================================================== *)

(** A [serial.Serial] object: whether it is open and the bytes received
    and not yet read. *)
Record Serial : Set := { is_open : bool; in_buffer : string }.

(** What the read loops put on [data_queue]: the flag [True] for a new
    angle frame, or a list of pressure values. *)
Inductive qitem : Set :=
  | QTrue
  | QPressure (values : list Z).

#[export] Instance qitem_eq_dec : EqDecision qitem.
Proof. solve_decision. Defined.

(** The methods that are handed to [root.after]. *)
Inductive callback : Set :=
  | CbUpdate
  | CbUpdateVisualization
  | CbReleaseUpdateLock.

#[export] Instance callback_eq_dec : EqDecision callback.
Proof. solve_decision. Defined.

(** A started [threading.Thread]. *)
Inductive thread : Set := ReadThread.

Record visualizer : Type := Visualizer {
  (** [queue.Queue()]: [put] appends, [get_nowait] takes the head *)
  data_queue : list qitem;
  (** [None] until a thread object is stored *)
  serial_thread : option thread;
  thread_running : bool;
  (** [None] or a [serial.Serial] object *)
  angle_serial : option Serial;
  pressure_serial : option Serial;
  calibration_min : list pyfloat;
  calibration_max : list pyfloat;
  is_calibrated : bool;
  update_interval : Z;
  angle_data : gmap string (list pyfloat);
  pressure_data : list Z;
  updating : bool;
  (** [None]: the attribute does not exist yet ([hasattr] is false) *)
  current_raw_angles : option (list pyfloat);
  (** [None]: the attribute does not exist yet *)
  update_locked : option bool;
  (** the text of the FPS combobox *)
  fps_var : string;
  (** the text of the connect button *)
  connect_btn : string;
  (** pending [root.after(ms, callback)] requests *)
  timers : list (Z * callback)
}.

Definition set_data_queue (x : list qitem) (st : visualizer) : visualizer :=
  {| data_queue := x; serial_thread := serial_thread st;
     thread_running := thread_running st; angle_serial := angle_serial st;
     pressure_serial := pressure_serial st;
     calibration_min := calibration_min st;
     calibration_max := calibration_max st;
     is_calibrated := is_calibrated st;
     update_interval := update_interval st; angle_data := angle_data st;
     pressure_data := pressure_data st; updating := updating st;
     current_raw_angles := current_raw_angles st;
     update_locked := update_locked st; fps_var := fps_var st;
     connect_btn := connect_btn st; timers := timers st |}.

Definition set_thread_running (x : bool) (st : visualizer) : visualizer :=
  {| data_queue := data_queue st; serial_thread := serial_thread st;
     thread_running := x; angle_serial := angle_serial st;
     pressure_serial := pressure_serial st;
     calibration_min := calibration_min st;
     calibration_max := calibration_max st;
     is_calibrated := is_calibrated st;
     update_interval := update_interval st; angle_data := angle_data st;
     pressure_data := pressure_data st; updating := updating st;
     current_raw_angles := current_raw_angles st;
     update_locked := update_locked st; fps_var := fps_var st;
     connect_btn := connect_btn st; timers := timers st |}.

Definition set_angle_serial (x : option Serial) (st : visualizer) : visualizer :=
  {| data_queue := data_queue st; serial_thread := serial_thread st;
     thread_running := thread_running st; angle_serial := x;
     pressure_serial := pressure_serial st;
     calibration_min := calibration_min st;
     calibration_max := calibration_max st;
     is_calibrated := is_calibrated st;
     update_interval := update_interval st; angle_data := angle_data st;
     pressure_data := pressure_data st; updating := updating st;
     current_raw_angles := current_raw_angles st;
     update_locked := update_locked st; fps_var := fps_var st;
     connect_btn := connect_btn st; timers := timers st |}.

Definition set_pressure_serial (x : option Serial) (st : visualizer) : visualizer :=
  {| data_queue := data_queue st; serial_thread := serial_thread st;
     thread_running := thread_running st; angle_serial := angle_serial st;
     pressure_serial := x; calibration_min := calibration_min st;
     calibration_max := calibration_max st;
     is_calibrated := is_calibrated st;
     update_interval := update_interval st; angle_data := angle_data st;
     pressure_data := pressure_data st; updating := updating st;
     current_raw_angles := current_raw_angles st;
     update_locked := update_locked st; fps_var := fps_var st;
     connect_btn := connect_btn st; timers := timers st |}.

Definition set_calibration_min (x : list pyfloat) (st : visualizer) : visualizer :=
  {| data_queue := data_queue st; serial_thread := serial_thread st;
     thread_running := thread_running st; angle_serial := angle_serial st;
     pressure_serial := pressure_serial st; calibration_min := x;
     calibration_max := calibration_max st;
     is_calibrated := is_calibrated st;
     update_interval := update_interval st; angle_data := angle_data st;
     pressure_data := pressure_data st; updating := updating st;
     current_raw_angles := current_raw_angles st;
     update_locked := update_locked st; fps_var := fps_var st;
     connect_btn := connect_btn st; timers := timers st |}.

Definition set_calibration_max (x : list pyfloat) (st : visualizer) : visualizer :=
  {| data_queue := data_queue st; serial_thread := serial_thread st;
     thread_running := thread_running st; angle_serial := angle_serial st;
     pressure_serial := pressure_serial st;
     calibration_min := calibration_min st; calibration_max := x;
     is_calibrated := is_calibrated st;
     update_interval := update_interval st; angle_data := angle_data st;
     pressure_data := pressure_data st; updating := updating st;
     current_raw_angles := current_raw_angles st;
     update_locked := update_locked st; fps_var := fps_var st;
     connect_btn := connect_btn st; timers := timers st |}.

Definition set_is_calibrated (x : bool) (st : visualizer) : visualizer :=
  {| data_queue := data_queue st; serial_thread := serial_thread st;
     thread_running := thread_running st; angle_serial := angle_serial st;
     pressure_serial := pressure_serial st;
     calibration_min := calibration_min st;
     calibration_max := calibration_max st; is_calibrated := x;
     update_interval := update_interval st; angle_data := angle_data st;
     pressure_data := pressure_data st; updating := updating st;
     current_raw_angles := current_raw_angles st;
     update_locked := update_locked st; fps_var := fps_var st;
     connect_btn := connect_btn st; timers := timers st |}.

Definition set_update_interval (x : Z) (st : visualizer) : visualizer :=
  {| data_queue := data_queue st; serial_thread := serial_thread st;
     thread_running := thread_running st; angle_serial := angle_serial st;
     pressure_serial := pressure_serial st;
     calibration_min := calibration_min st;
     calibration_max := calibration_max st;
     is_calibrated := is_calibrated st; update_interval := x;
     angle_data := angle_data st; pressure_data := pressure_data st;
     updating := updating st; current_raw_angles := current_raw_angles st;
     update_locked := update_locked st; fps_var := fps_var st;
     connect_btn := connect_btn st; timers := timers st |}.

Definition set_angle_data (x : gmap string (list pyfloat)) (st : visualizer) : visualizer :=
  {| data_queue := data_queue st; serial_thread := serial_thread st;
     thread_running := thread_running st; angle_serial := angle_serial st;
     pressure_serial := pressure_serial st;
     calibration_min := calibration_min st;
     calibration_max := calibration_max st;
     is_calibrated := is_calibrated st;
     update_interval := update_interval st; angle_data := x;
     pressure_data := pressure_data st; updating := updating st;
     current_raw_angles := current_raw_angles st;
     update_locked := update_locked st; fps_var := fps_var st;
     connect_btn := connect_btn st; timers := timers st |}.

Definition set_pressure_data (x : list Z) (st : visualizer) : visualizer :=
  {| data_queue := data_queue st; serial_thread := serial_thread st;
     thread_running := thread_running st; angle_serial := angle_serial st;
     pressure_serial := pressure_serial st;
     calibration_min := calibration_min st;
     calibration_max := calibration_max st;
     is_calibrated := is_calibrated st;
     update_interval := update_interval st; angle_data := angle_data st;
     pressure_data := x; updating := updating st;
     current_raw_angles := current_raw_angles st;
     update_locked := update_locked st; fps_var := fps_var st;
     connect_btn := connect_btn st; timers := timers st |}.

Definition set_updating (x : bool) (st : visualizer) : visualizer :=
  {| data_queue := data_queue st; serial_thread := serial_thread st;
     thread_running := thread_running st; angle_serial := angle_serial st;
     pressure_serial := pressure_serial st;
     calibration_min := calibration_min st;
     calibration_max := calibration_max st;
     is_calibrated := is_calibrated st;
     update_interval := update_interval st; angle_data := angle_data st;
     pressure_data := pressure_data st; updating := x;
     current_raw_angles := current_raw_angles st;
     update_locked := update_locked st; fps_var := fps_var st;
     connect_btn := connect_btn st; timers := timers st |}.

Definition set_current_raw_angles (x : option (list pyfloat)) (st : visualizer) : visualizer :=
  {| data_queue := data_queue st; serial_thread := serial_thread st;
     thread_running := thread_running st; angle_serial := angle_serial st;
     pressure_serial := pressure_serial st;
     calibration_min := calibration_min st;
     calibration_max := calibration_max st;
     is_calibrated := is_calibrated st;
     update_interval := update_interval st; angle_data := angle_data st;
     pressure_data := pressure_data st; updating := updating st;
     current_raw_angles := x; update_locked := update_locked st;
     fps_var := fps_var st; connect_btn := connect_btn st;
     timers := timers st |}.

Definition set_update_locked (x : option bool) (st : visualizer) : visualizer :=
  {| data_queue := data_queue st; serial_thread := serial_thread st;
     thread_running := thread_running st; angle_serial := angle_serial st;
     pressure_serial := pressure_serial st;
     calibration_min := calibration_min st;
     calibration_max := calibration_max st;
     is_calibrated := is_calibrated st;
     update_interval := update_interval st; angle_data := angle_data st;
     pressure_data := pressure_data st; updating := updating st;
     current_raw_angles := current_raw_angles st; update_locked := x;
     fps_var := fps_var st; connect_btn := connect_btn st;
     timers := timers st |}.

Definition set_fps_var (x : string) (st : visualizer) : visualizer :=
  {| data_queue := data_queue st; serial_thread := serial_thread st;
     thread_running := thread_running st; angle_serial := angle_serial st;
     pressure_serial := pressure_serial st;
     calibration_min := calibration_min st;
     calibration_max := calibration_max st;
     is_calibrated := is_calibrated st;
     update_interval := update_interval st; angle_data := angle_data st;
     pressure_data := pressure_data st; updating := updating st;
     current_raw_angles := current_raw_angles st;
     update_locked := update_locked st; fps_var := x;
     connect_btn := connect_btn st; timers := timers st |}.

Definition set_connect_btn (x : string) (st : visualizer) : visualizer :=
  {| data_queue := data_queue st; serial_thread := serial_thread st;
     thread_running := thread_running st; angle_serial := angle_serial st;
     pressure_serial := pressure_serial st;
     calibration_min := calibration_min st;
     calibration_max := calibration_max st;
     is_calibrated := is_calibrated st;
     update_interval := update_interval st; angle_data := angle_data st;
     pressure_data := pressure_data st; updating := updating st;
     current_raw_angles := current_raw_angles st;
     update_locked := update_locked st; fps_var := fps_var st;
     connect_btn := x; timers := timers st |}.

Definition set_timers (x : list (Z * callback)) (st : visualizer) : visualizer :=
  {| data_queue := data_queue st; serial_thread := serial_thread st;
     thread_running := thread_running st; angle_serial := angle_serial st;
     pressure_serial := pressure_serial st;
     calibration_min := calibration_min st;
     calibration_max := calibration_max st;
     is_calibrated := is_calibrated st;
     update_interval := update_interval st; angle_data := angle_data st;
     pressure_data := pressure_data st; updating := updating st;
     current_raw_angles := current_raw_angles st;
     update_locked := update_locked st; fps_var := fps_var st;
     connect_btn := connect_btn st; timers := x |}.

(** [self.x and self.x.is_open] *)
Definition connected (port : option Serial) : bool :=
  match port with
  | Some s => is_open s
  | None => false
  end.

(** [port.close()] on the object stored in the attribute. *)
Definition close (port : option Serial) : option Serial :=
  match port with
  | Some s => Some {| is_open := false; in_buffer := in_buffer s |}
  | None => None
  end.

(** [l[i]] for a non-negative index. *)
Definition index {A} (l : list A) (i : nat) : result A :=
  match l !! i with
  | Some x => ret x
  | None => raise IndexError
  end.

(** [l[a:b]] for [0 <= a <= b]. *)
Definition slice {A} (a b : nat) (l : list A) : list A := take (b - a) (drop a l).

(** [self.data_queue.put(x)] *)
Definition put (x : qitem) (st : visualizer) : visualizer :=
  set_data_queue (data_queue st ++ [x]) st.

(** [self.root.after(ms, cb)] *)
Definition after (ms : Z) (cb : callback) (st : visualizer) : visualizer :=
  set_timers (timers st ++ [(ms, cb)]) st.

(** The state that [__init__] leaves. *)
Definition init : visualizer :=
  {| data_queue := [];
     serial_thread := None;
     thread_running := false;
     angle_serial := None;
     pressure_serial := None;
     calibration_min := replicate 14 PInf;
     calibration_max := replicate 14 NInf;
     is_calibrated := false;
     update_interval := 17;
     angle_data :=
       <["finger_0" := replicate 2 (PyFloat.of_Z 180)]>
       (<["finger_4" := PyFloat.of_Z <$> [45; 55; 65]]>
       (<["finger_3" := PyFloat.of_Z <$> [40; 50; 60]]>
       (<["finger_2" := PyFloat.of_Z <$> [35; 45; 55]]>
       (<["finger_1" := PyFloat.of_Z <$> [30; 40; 50]]> ∅))));
     pressure_data := replicate 5 0;
     updating := false;
     current_raw_angles := None;
     update_locked := None;
     fps_var := "60";
     connect_btn := "连接";
     timers := [] |}.

(* ===================================================================== *)
(** * The class namespace *)
(* ===================================================================== *)

(** The [def] statements of the class body, in source order, each with the
    line it starts on.  [serial_read_thread] is defined twice. *)
Definition class_body : list (string * nat) :=
  [ ("__init__", 29); ("create_hand_model", 107); ("init_3d_view", 242);
    ("update_view_limits", 283); ("_init_mouse_control", 289);
    ("update_hand_model", 336); ("serial_read_thread", 369);
    ("stop_serial_thread", 429); ("toggle_connection", 435); ("update", 476);
    ("update_data_display", 502); ("init_data_tab", 524);
    ("get_available_ports", 594); ("refresh_ports", 603);
    ("init_control_panel", 628); ("update_frequency", 683);
    ("release_update_lock", 697); ("set_min_values", 701);
    ("set_max_values", 710); ("reset_calibration", 720); ("map_angle", 728);
    ("parse_serial_data", 751); ("serial_read_thread", 788);
    ("update_visualization", 805); ("run", 828) ]%nat.

(** Executing the class body binds each name in turn; a later [def] of the
    same name rebinds it. *)
Definition class_namespace : gmap string nat :=
  foldl (fun ns d => <[d.1 := d.2]> ns) ∅ class_body.

(** [self.<name>] for a method: the instance has only data attributes, so
    the lookup ends in the class namespace. *)
Definition getattr_method (name : string) : result nat :=
  match class_namespace !! name with
  | Some line => ret line
  | None => raise AttributeError
  end.

(* ===================================================================== *)
(** * Calibration *)
(* ===================================================================== *)

(** What a button handler shows in its message box. *)
Inductive dialog : Set :=
  | ShowWarning
  | ShowInfo
  | ShowError (e : exn)
  | NoDialog.

Definition set_min_values (st : visualizer) : visualizer * dialog :=
  if negb (connected (angle_serial st)) then (st, ShowWarning)
  else
    (set_calibration_min
       (match current_raw_angles st with
        | Some raw => raw
        | None => replicate 14 PInf
        end) st,
     ShowInfo).

Definition set_max_values (st : visualizer) : visualizer * dialog :=
  if negb (connected (angle_serial st)) then (st, ShowWarning)
  else
    (set_is_calibrated true
       (set_calibration_max
          (match current_raw_angles st with
           | Some raw => raw
           | None => replicate 14 NInf
           end) st),
     ShowInfo).

Definition reset_calibration (st : visualizer) : visualizer * dialog :=
  (set_is_calibrated false
     (set_calibration_max (replicate 14 NInf)
        (set_calibration_min (replicate 14 PInf) st)),
   ShowInfo).

Definition map_angle (st : visualizer) (value : pyfloat) (idx : nat) : result pyfloat :=
  if negb (is_calibrated st) then ret value
  else
    min_val ← index (calibration_min st) idx;
    max_val ← index (calibration_max st) idx;
    if PyFloat.eqb min_val PInf || PyFloat.eqb max_val NInf then ret value
    else if PyFloat.eqb max_val min_val then ret (PyFloat.of_Z 45)
    else
      ratio ← PyFloat.div (PyFloat.sub value min_val) (PyFloat.sub max_val min_val);
      let mapped := PyFloat.mul ratio (PyFloat.of_Z 90) in
      let mapped := PyFloat.py_max (PyFloat.of_Z 0)
                      (PyFloat.py_min (PyFloat.of_Z 90) mapped) in
      ret mapped.

(* ===================================================================== *)
(** * A reading of decimal literals *)
(* ===================================================================== *)

Module Decimal.

Definition all_digits (s : string) : bool :=
  forallb PyStr.is_digit (String.list_ascii_of_string s).

Definition unsigned (s : string) : option Qc :=
  match PyStr.split "."%char s with
  | [ip] =>
      if negb (PyStr.is_empty ip) && all_digits ip
      then Some (Qc_of_Z (PyStr.int_of_digits ip))
      else None
  | [ip; fp] =>
      if negb (PyStr.is_empty ip && PyStr.is_empty fp)
         && all_digits ip && all_digits fp
      then Some (Qc_of_Z (PyStr.int_of_digits (ip +:+ fp))
                 / Qc_of_Z (10 ^ Z.of_nat (String.length fp)))%Qc
      else None
  | _ => None
  end.

(** [float(s)] on the literals [[+-]digits[.digits]], [[+-].digits],
    [[+-]inf], [[+-]infinity] and [[+-]nan], surrounded by optional white
    space.  Exponents, underscores and upper-case spellings, which
    Python's [float] also accepts, are left out: this reading is [None] on
    them.  It is used for concrete frames only; the pipeline below takes
    the conversion as a parameter. *)
Definition float (s : string) : option pyfloat :=
  let t := PyStr.strip s in
  let '(negative, body) :=
    match t with
    | String c b =>
        if Ascii.eqb c "-"%char then (true, b)
        else if Ascii.eqb c "+"%char then (false, b)
        else (false, t)
    | EmptyString => (false, t)
    end in
  if String.eqb body "inf" || String.eqb body "infinity"
  then Some (PyFloat.signed_inf negative)
  else if String.eqb body "nan" then Some NaN
  else match unsigned body with
       | Some q => Some (PyFloat.finite (if negative then - q else q)%Qc)
       | None => None
       end.

End Decimal.

(* ===================================================================== *)
(** * Parsing and the read loops *)
(* ===================================================================== *)

(** [port.readline()] on the bytes received so far: the bytes up to and
    including the first newline, or, when the timeout expires first, all
    of them.  Returns the line and what stays in the receive buffer. *)
Definition readline (rx : string) : string * string :=
  match PyStr.split_once "010"%char rx with
  | Some (line, rest) => (line +:+ String "010"%char EmptyString, rest)
  | None => (rx, EmptyString)
  end.

(** [port.in_waiting] as a truth value. *)
Definition in_waiting (s : Serial) : bool := negb (PyStr.is_empty (in_buffer s)).

Section Pipeline.

(** Python's built-in [float] on a string: [None] when it raises
    [ValueError]. *)
Variable float_of_str : string -> option pyfloat.

(** The body of the [for part in parts] loop:
    [float(part.split('=')[1])]. *)
Definition parse_part (part : string) : result pyfloat :=
  field ← index (PyStr.split "="%char part) 1;
  match float_of_str field with
  | Some value => ret value
  | None => raise ValueError
  end.

(** Lines 755-765: the 14 values of a line, or the exception that makes
    [parse_serial_data] return [None]. *)
Definition parse_angles (data : string) : option (list pyfloat) :=
  let parts := PyStr.split ","%char (PyStr.strip data) in
  if negb (length parts =? 14)%nat then None
  else match mapM parse_part parts with
       | inr angles => Some angles
       | inl _ => None
       end.

(** [mapped_angles = [self.map_angle(angle, i) for i, angle in enumerate(angles)]] *)
Definition map_angles (st : visualizer) (angles : list pyfloat) : result (list pyfloat) :=
  mapM (fun p => map_angle st p.2 p.1) (enumerate angles).

(** The five assignments to [self.angle_data[...]]. *)
Definition assign_fingers (mapped : list pyfloat) (st : visualizer) : visualizer :=
  set_angle_data
    (<["finger_0" := slice 12 14 mapped]>
    (<["finger_4" := slice 9 12 mapped]>
    (<["finger_3" := slice 6 9 mapped]>
    (<["finger_2" := slice 3 6 mapped]>
    (<["finger_1" := slice 0 3 mapped]> (angle_data st)))))) st.

(** Returns [Some true] for [True] and [None] for [None]. *)
Definition parse_serial_data (st : visualizer) (data : string) : visualizer * option bool :=
  match parse_angles data with
  | None => (st, None)
  | Some angles =>
      let st := set_current_raw_angles (Some angles) st in
      match map_angles st angles with
      | inl _ => (st, None)
      | inr mapped_angles => (assign_fingers mapped_angles st, Some true)
      end
  end.

(** One pass of the angle branch shared by both loops: read a line from
    the angle port when bytes are waiting, parse it, and signal a new
    frame.  The line is taken to be ASCII, where decoding is the identity;
    a line that does not decode is not covered. *)
Definition read_angle (st : visualizer) : visualizer :=
  match angle_serial st with
  | Some port =>
      if is_open port && in_waiting port then
        let '(line, rest) := readline (in_buffer port) in
        let st := set_angle_serial (Some {| is_open := true; in_buffer := rest |}) st in
        let data := PyStr.strip line in
        if negb (PyStr.is_empty data) then
          match parse_serial_data st data with
          | (st, Some true) => put QTrue st
          | (st, _) => st
          end
        else st
      else st
  | None => st
  end.

(** Lines 405-414: [while '\n' in buffer]: take the first line off the
    buffer and enqueue its five values when it is a pressure record.
    Every pass shortens the buffer, so [String.length buffer] passes are
    enough. *)
Fixpoint extract_lines (fuel : nat) (buffer : string) (st : visualizer)
  : string * visualizer :=
  match fuel with
  | O => (buffer, st)
  | S fuel' =>
      match PyStr.split_once "010"%char buffer with
      | None => (buffer, st)
      | Some (line, buffer) =>
          let line := PyStr.strip line in
          let st :=
            if PyStr.startswith "ch0:" line then
              let values := PyStr.findall_ch line in
              if (length values =? 5)%nat
              then put (QPressure (PyStr.int_of_digits <$> values)) st
              else st
            else st in
          extract_lines fuel' buffer st
      end
  end.

(** The pressure branch of the first definition (lines 394-418).  [buffer]
    is the local variable that the loop carries from pass to pass.  As in
    [read_angle] the line is taken to be ASCII. *)
Definition read_pressure (buffer : string) (st : visualizer) : string * visualizer :=
  match pressure_serial st with
  | Some port =>
      if is_open port && in_waiting port then
        let '(line, rest) := readline (in_buffer port) in
        let st := set_pressure_serial (Some {| is_open := true; in_buffer := rest |}) st in
        let data := PyStr.strip line in
        let decoded := PyStr.strip data in
        if negb (PyStr.is_empty decoded) then
          let buffer := buffer +:+ decoded in
          extract_lines (String.length buffer) buffer st
        else (buffer, st)
      else (buffer, st)
  | None => (buffer, st)
  end.

(** One pass of [while self.thread_running] in the definition at line
    369. *)
Definition serial_read_thread_369 (buffer : string) (st : visualizer)
  : string * visualizer :=
  read_pressure buffer (read_angle st).

(** One pass of [while self.thread_running] in the definition at line
    788. *)
Definition serial_read_thread_788 (st : visualizer) : visualizer :=
  read_angle st.

(** One pass of the loop of [self.serial_read_thread], whichever
    definition the name is bound to. *)
Definition serial_read_thread (buffer : string) (st : visualizer)
  : string * visualizer :=
  match class_namespace !! "serial_read_thread" with
  | Some 369%nat => serial_read_thread_369 buffer st
  | Some 788%nat => (buffer, serial_read_thread_788 st)
  | _ => (buffer, st)
  end.

End Pipeline.

(* ===================================================================== *)
(** * Connection *)
(* ===================================================================== *)

Definition stop_serial_thread (st : visualizer) : visualizer :=
  set_thread_running false st.

(** [serial.Serial(port, 115200, timeout=0.1)]: [openable] says which
    ports the operating system lets the program open. *)
Definition open_serial (openable : string -> bool) (port : string) : result Serial :=
  if openable port then ret {| is_open := true; in_buffer := EmptyString |}
  else raise SerialException.

(** A statement of a [try] body: the state it leaves and the exception it
    raised, if any. *)
Definition stmt : Type := visualizer -> visualizer * option exn.

Definition then_ (s1 s2 : stmt) : stmt := fun st =>
  match s1 st with
  | (st', None) => s2 st'
  | (st', Some e) => (st', Some e)
  end.

Infix ";;;" := then_ (at level 62, right associativity).

Definition open_angle (openable : string -> bool) (angle_port : string) : stmt := fun st =>
  if negb (PyStr.is_empty angle_port) then
    match open_serial openable angle_port with
    | inr s => (set_angle_serial (Some s) st, None)
    | inl e => (st, Some e)
    end
  else (st, None).

Definition open_pressure (openable : string -> bool) (pressure_port : string) : stmt := fun st =>
  if negb (PyStr.is_empty pressure_port) then
    match open_serial openable pressure_port with
    | inr s => (set_pressure_serial (Some s) st, None)
    | inl e => (st, Some e)
    end
  else (st, None).

Definition show_disconnect : stmt := fun st => (set_connect_btn "断开" st, None).

(** [self.start_serial_thread()]: the attribute lookup comes first.  The
    class has no such method, so there is no body to run after it. *)
Definition call_start_serial_thread : stmt := fun st =>
  match getattr_method "start_serial_thread" with
  | inl e => (st, Some e)
  | inr _ => (st, None)
  end.

(** The [except Exception] handler of the connect branch. *)
Definition connect_failed (st : visualizer) : visualizer :=
  let st := if connected (angle_serial st)
            then set_angle_serial (close (angle_serial st)) st else st in
  let st := if connected (pressure_serial st)
            then set_pressure_serial (close (pressure_serial st)) st else st in
  set_connect_btn "连接" st.

Definition toggle_connection (openable : string -> bool)
    (angle_port pressure_port : string) (st : visualizer) : visualizer * dialog :=
  if connected (angle_serial st) || connected (pressure_serial st) then
    let st := stop_serial_thread st in
    let st := if connected (angle_serial st)
              then set_angle_serial (close (angle_serial st)) st else st in
    let st := if connected (pressure_serial st)
              then set_pressure_serial (close (pressure_serial st)) st else st in
    (set_connect_btn "连接" st, NoDialog)
  else if PyStr.is_empty angle_port && PyStr.is_empty pressure_port then
    (st, ShowWarning)
  else
    match (open_angle openable angle_port ;;;
           open_pressure openable pressure_port ;;;
           show_disconnect ;;;
           call_start_serial_thread) st with
    | (st, None) => (st, NoDialog)
    | (st, Some e) => (connect_failed st, ShowError e)
    end.

(* ===================================================================== *)
(** * The foreground refresh *)
(* ===================================================================== *)

(** [update_frequency]: [fps] is [int(self.fps_var.get())], [None] when
    that raises [ValueError].  [int(1000 / fps)] truncates the quotient. *)
Definition update_frequency (fps : option Z) (st : visualizer) : visualizer :=
  match update_locked st with
  | Some true => st
  | _ =>
      let st := set_update_locked (Some true) st in
      match fps with
      | Some fps =>
          let st := if 0 <? fps then set_update_interval (1000 / fps) st else st in
          after 100 CbReleaseUpdateLock st
      | None =>
          after 100 CbReleaseUpdateLock (set_fps_var "60" st)
      end
  end.

Definition release_update_lock (st : visualizer) : visualizer :=
  set_update_locked (Some false) st.

(** [update]: empties the queue, redraws, and asks to be called again
    after [update_interval] milliseconds. *)
Definition update (st : visualizer) : visualizer :=
  let st := if negb (updating st)
            then set_updating false (set_data_queue [] (set_updating true st))
            else st in
  after (update_interval st) CbUpdate st.

(** The [while not self.data_queue.empty()] loop of
    [update_visualization]: the pressure vector after the queue is
    drained. *)
Fixpoint drain (queue : list qitem) (pressure : list Z) : list Z :=
  match queue with
  | [] => pressure
  | QPressure data :: queue' =>
      drain queue' (if (length data =? 5)%nat then data else pressure)
  | QTrue :: queue' => drain queue' pressure
  end.

Definition update_visualization (st : visualizer) : visualizer :=
  let st := set_data_queue [] (set_pressure_data (drain (data_queue st) (pressure_data st)) st) in
  if thread_running st then after 16 CbUpdateVisualization st else st.

(** [run] up to the main loop. *)
Definition run (st : visualizer) : visualizer := update_visualization st.

(** The delays of the pending requests to call [cb]. *)
Definition scheduled (cb : callback) (st : visualizer) : list Z :=
  (filter (fun t => t.2 = cb) (timers st)).*1.

(* ===================================================================== *)
(** * The running program *)
(* ===================================================================== *)

(** What can happen once [run] has entered the main loop. *)
Inductive event : Type :=
  | EvToggleConnection (openable : string -> bool) (angle_port pressure_port : string)
  | EvSetMin
  | EvSetMax
  | EvResetCalibration
  | EvFpsSelected (fps : option Z)
  | EvTimer (n : nat)
  | EvBytes (pressure : bool) (data : string)
  | EvReadLoop.

(** Bytes arriving at an open port. *)
Definition receive (data : string) (port : option Serial) : option Serial :=
  match port with
  | Some s =>
      if is_open s
      then Some {| is_open := true; in_buffer := in_buffer s +:+ data |}
      else port
  | None => None
  end.

Definition run_callback (cb : callback) (st : visualizer) : visualizer :=
  match cb with
  | CbUpdate => update st
  | CbUpdateVisualization => update_visualization st
  | CbReleaseUpdateLock => release_update_lock st
  end.

Section Program.

Variable float_of_str : string -> option pyfloat.

(** One event.  The program state is the object together with the local
    variable [buffer] of the read loop. *)
Definition step (ev : event) (p : visualizer * string) : visualizer * string :=
  let '(st, buffer) := p in
  match ev with
  | EvToggleConnection openable angle_port pressure_port =>
      ((toggle_connection openable angle_port pressure_port st).1, buffer)
  | EvSetMin => ((set_min_values st).1, buffer)
  | EvSetMax => ((set_max_values st).1, buffer)
  | EvResetCalibration => ((reset_calibration st).1, buffer)
  | EvFpsSelected fps => (update_frequency fps st, buffer)
  | EvTimer n =>
      match timers st !! n with
      | Some (_, cb) => (run_callback cb (set_timers (delete n (timers st)) st), buffer)
      | None => p
      end
  | EvBytes pressure data =>
      if pressure
      then (set_pressure_serial (receive data (pressure_serial st)) st, buffer)
      else (set_angle_serial (receive data (angle_serial st)) st, buffer)
  | EvReadLoop =>
      match serial_thread st with
      | Some _ =>
          if thread_running st
          then let '(buffer, st) := serial_read_thread float_of_str buffer st in
               (st, buffer)
          else p
      | None => p
      end
  end.

(** The state after a sequence of events, starting from [run] on a fresh
    object. *)
Definition execute (evs : list event) : visualizer * string :=
  foldl (fun p ev => step ev p) (run init, EmptyString) evs.

End Program.

(** The state after the events [evs], starting from [p]. *)
Definition run_from (float_of_str : string -> option pyfloat)
    (p : visualizer * string) (evs : list event) : visualizer * string :=
  foldl (fun p ev => step float_of_str ev p) p evs.

(* ===================================================================== *)
(** * The specification's vocabulary *)
(* ===================================================================== *)

(** [clamp(x, lo, hi)], read as [max(lo, min(hi, x))]. *)
Definition clamp (x lo hi : pyfloat) : pyfloat :=
  PyFloat.py_max lo (PyFloat.py_min hi x).

(** [((value - min) / (max - min)) * 90] where the divisor is not zero. *)
Definition rescale (value lo hi : pyfloat) : pyfloat :=
  PyFloat.mul (PyFloat.quot (PyFloat.sub value lo) (PyFloat.sub hi lo))
              (PyFloat.of_Z 90).

(** A bound that is not the "unset" sentinel of its side. *)
Definition bounds_set (lo hi : pyfloat) : Prop := lo ≠ PInf ∧ hi ≠ NInf.

(** A segment of the form [<label>=<float>]: the text after the first
    [=] (and before the next one) converts to [value]. *)
Definition segment_value (float_of_str : string -> option pyfloat)
    (part : string) (value : pyfloat) : Prop :=
  ∃ field, PyStr.split "="%char part !! 1%nat = Some field
           ∧ float_of_str field = Some value.

(** The calibration arrays have one entry per channel. *)
Definition calibration_sized (st : visualizer) : Prop :=
  length (calibration_min st) = 14%nat ∧ length (calibration_max st) = 14%nat.

(** The flag is set whenever the upper bounds have been stored. *)
Definition flag_consistent (st : visualizer) : Prop :=
  is_calibrated st = false → calibration_max st = replicate 14 NInf.

(* ===================================================================== *)
(** * Concrete frames and states *)
(* ===================================================================== *)

Definition frame_10_to_140 : string :=
  "C1=10.0,C2=20.0,C3=30.0,C4=40.0,C5=50.0,C6=60.0,C7=70.0,C8=80.0,C9=90.0,C10=100.0,C11=110.0,C12=120.0,C13=130.0,C14=140.0".

Definition frame_13_fields : string :=
  "C1=10.0,C2=20.0,C3=30.0,C4=40.0,C5=50.0,C6=60.0,C7=70.0,C8=80.0,C9=90.0,C10=100.0,C11=110.0,C12=120.0,C13=130.0".

Definition frame_bad_value : string :=
  "C1=10.0,C2=20.0,C3=abc,C4=40.0,C5=50.0,C6=60.0,C7=70.0,C8=80.0,C9=90.0,C10=100.0,C11=110.0,C12=120.0,C13=130.0,C14=140.0".

Definition frame_zeros : string :=
  "C1=0,C2=0,C3=0,C4=0,C5=0,C6=0,C7=0,C8=0,C9=0,C10=0,C11=0,C12=0,C13=0,C14=0".

Definition frame_hundreds : string :=
  "C1=100,C2=100,C3=100,C4=100,C5=100,C6=100,C7=100,C8=100,C9=100,C10=100,C11=100,C12=100,C13=100,C14=100".

Definition frame_infinite : string :=
  "C1=inf,C2=0,C3=0,C4=0,C5=0,C6=0,C7=0,C8=0,C9=0,C10=0,C11=0,C12=0,C13=0,C14=0".

(** A fresh object whose angle port is open. *)
Definition connected_init : visualizer :=
  set_angle_serial (Some {| is_open := true; in_buffer := EmptyString |}) init.

(** Receive [lo_frame], press "set minimum", receive [hi_frame], press
    "set maximum". *)
Definition calibrated (lo_frame hi_frame : string) : visualizer :=
  let st := (parse_serial_data Decimal.float connected_init lo_frame).1 in
  let st := (set_min_values st).1 in
  let st := (parse_serial_data Decimal.float st hi_frame).1 in
  (set_max_values st).1.

(** "Set maximum" alone, with no frame received. *)
Definition max_only : visualizer := (set_max_values connected_init).1.

(** The pressure record of the second end-to-end scenario, in two
    chunks. *)
Definition chunk_1 : string := "ch0:10ch1:20ch2".
Definition chunk_2 : string := ":30ch3:40ch4:50" +:+ String "010"%char EmptyString.

(** A fresh object whose pressure port is open. *)
Definition pressure_init : visualizer :=
  set_pressure_serial (Some {| is_open := true; in_buffer := EmptyString |}) init.

(** The pressure values on the queue, in order. *)
Definition pressure_frames (st : visualizer) : list (list Z) :=
  omap (fun item => match item with QPressure v => Some v | QTrue => None end)
       (data_queue st).

(** Deliver the chunks one at a time to the loop defined at line 369: each
    chunk arrives at the pressure port and the loop then makes [passes]
    passes. *)
Fixpoint deliver_369 (float_of_str : string -> option pyfloat) (passes : nat)
    (chunks : list string) (buffer : string) (st : visualizer) : string * visualizer :=
  match chunks with
  | [] => (buffer, st)
  | chunk :: chunks' =>
      let st := set_pressure_serial (receive chunk (pressure_serial st)) st in
      let '(buffer, st) :=
        Nat.iter passes (fun p => serial_read_thread_369 float_of_str p.1 p.2) (buffer, st) in
      deliver_369 float_of_str passes chunks' buffer st
  end.

(* ===================================================================== *)
(** * Invariants *)
(* ===================================================================== *)

(** What [map_angle] returns for a channel whose bounds are set and differ. *)
Definition rescaled (v lo hi : pyfloat) : pyfloat :=
  clamp (rescale v lo hi) (PyFloat.of_Z 0) (PyFloat.of_Z 90).

(** The object is idle: no read thread and no open port. *)
Definition idle (st : visualizer) : Prop :=
  thread_running st = false ∧ serial_thread st = None
  ∧ connected (angle_serial st) = false ∧ connected (pressure_serial st) = false.

(** Only [True] is on the queue and the pressure vector is the initial
    one. *)
Definition no_pressure (st : visualizer) : Prop :=
  Forall (λ item, item = QTrue) (data_queue st) ∧ pressure_data st = replicate 5 0.

(** The only pending timer requests are lock releases. *)
Definition only_lock_releases (st : visualizer) : Prop :=
  Forall (λ t, t.2 = CbReleaseUpdateLock) (timers st).

(** No newline except, possibly, as the last character. *)
Fixpoint newline_only_last (s : string) : bool :=
  match s with
  | EmptyString => true
  | String c s' =>
      PyStr.is_empty s' || negb (Ascii.eqb c "010"%char) && newline_only_last s'
  end.

(* ===================================================================== *)
(** * The port selectors *)
(* ===================================================================== *)

(** What [refresh_ports] reads and writes: the list of ports, the two
    selections, the values offered by the two comboboxes and whether the
    connect button and the comboboxes are enabled ([state='normal']). *)
Record port_panel : Set := {
  available_ports : list string;
  angle_port_var : string;
  pressure_port_var : string;
  angle_port_values : list string;
  pressure_port_values : list string;
  connect_btn_enabled : bool;
  angle_port_combo_enabled : bool;
  pressure_port_combo_enabled : bool
}.

(** The panel that [init_control_panel] builds before it refreshes: both
    selections empty. *)
Definition fresh_panel : port_panel :=
  {| available_ports := [];
     angle_port_var := EmptyString;
     pressure_port_var := EmptyString;
     angle_port_values := [];
     pressure_port_values := [];
     connect_btn_enabled := true;
     angle_port_combo_enabled := true;
     pressure_port_combo_enabled := true |}.

(** [x in l] for strings. *)
Definition str_in (x : string) (l : list string) : bool :=
  existsb (String.eqb x) l.

(** The selection after the test
    [var.get() not in self.available_ports and self.available_ports]. *)
Definition reselect (var : string) (ports : list string) : string :=
  match ports with
  | first :: _ => if negb (str_in var ports) then first else var
  | [] => var
  end.

(** [refresh_ports]; [comports] is the list of devices that
    [get_available_ports] collects, in the order in which
    [serial.tools.list_ports.comports()] yields them. *)
Definition refresh_ports (comports : list string) (panel : port_panel) : port_panel :=
  let enabled := negb (bool_decide (comports = [])) in
  {| available_ports := comports;
     angle_port_var := reselect (angle_port_var panel) comports;
     pressure_port_var := reselect (pressure_port_var panel) comports;
     angle_port_values := comports;
     pressure_port_values := comports;
     connect_btn_enabled := enabled;
     angle_port_combo_enabled := enabled;
     pressure_port_combo_enabled := enabled |}.

(* ===================================================================== *)
(** * More invariants *)
(* ===================================================================== *)

(** Every stored frame has one entry per channel: the two calibration
    arrays and, once a line has been accepted, the raw frame. *)
Definition frames_sized (st : visualizer) : Prop :=
  calibration_sized st
  ∧ ∀ raw, current_raw_angles st = Some raw → length raw = 14%nat.

(** The fingers and the number of joints of each. *)
Definition finger_joints : list (string * nat) :=
  [("finger_0", 2); ("finger_1", 3); ("finger_2", 3); ("finger_3", 3);
   ("finger_4", 3)]%nat.

(** [angle_data] has an entry of the right length for each finger. *)
Definition pose_shaped (st : visualizer) : Prop :=
  Forall (λ fj, ∃ joints, angle_data st !! fj.1 = Some joints ∧ length joints = fj.2)
         finger_joints.

(** The list that a queue item makes [update_visualization] store, if
    any: a list of exactly five values. *)
Definition pressure_list (item : qitem) : option (list Z) :=
  match item with
  | QPressure data => if (length data =? 5)%nat then Some data else None
  | QTrue => None
  end.

(** The queue items that the extraction loop can produce: five
    non-negative values. *)
Definition pressure_record (item : qitem) : Prop :=
  ∃ data, item = QPressure data ∧ length data = 5%nat ∧ Forall (λ v, 0 <= v) data.

(** An object whose angle port is open with [rx] waiting to be read. *)
Definition streaming (rx : string) : visualizer :=
  set_angle_serial (Some {| is_open := true; in_buffer := rx |}) init.

(** An object with both ports open. *)
Definition both_open : visualizer :=
  set_pressure_serial (Some {| is_open := true; in_buffer := EmptyString |})
    (set_thread_running true connected_init).

(** The pose and the calibration are those of a fresh object. *)
Definition untouched (st : visualizer) : Prop :=
  is_calibrated st = false
  ∧ calibration_min st = replicate 14 PInf
  ∧ calibration_max st = replicate 14 NInf
  ∧ current_raw_angles st = None
  ∧ angle_data st = angle_data init
  ∧ connect_btn st = "连接".

(** [s.isascii()]: every character is below 128.  On such bytes
    [decode('utf-8')] is the identity and cannot raise, [\d] matches the
    ten digits only and [strip] removes the ASCII white space only. *)
Definition is_ascii (s : string) : bool :=
  forallb (fun c => (Ascii.nat_of_ascii c <? 128)%nat) (String.list_ascii_of_string s).

(** The default limit of [int(str)] on the number of digits
    ([sys.int_info.default_max_str_digits]); a longer literal raises
    [ValueError]. *)
Definition int_max_str_digits : nat := 4300.

(* ===================================================================== *)
(** * Lemmas *)
(* ===================================================================== *)

#[local] Opaque class_namespace.
#[local] Arguments call_start_serial_thread : simpl never.
#[local] Arguments serial_read_thread : simpl never.
#[local] Arguments PyFloat.finite : simpl never.

Lemma eqb_PInf x : PyFloat.eqb x PInf = false ↔ x ≠ PInf.
Proof. destruct x; simpl; split; intros; congruence. Qed.

Lemma eqb_NInf x : PyFloat.eqb x NInf = false ↔ x ≠ NInf.
Proof. destruct x; simpl; split; intros; congruence. Qed.

Lemma finite_fin q d : PyFloat.finite q = Fin d → d = q.
Proof. unfold PyFloat.finite. repeat case_bool_decide; congruence. Qed.

Lemma finite_not_nan q : PyFloat.finite q ≠ NaN.
Proof. unfold PyFloat.finite. repeat case_bool_decide; congruence. Qed.

Lemma sub_fin hi lo d :
  PyFloat.sub hi lo = Fin d → ∃ a b, lo = Fin a ∧ hi = Fin b ∧ d = (b - a)%Qc.
Proof.
  destruct hi as [b| | |], lo as [a| | |]; simpl; try discriminate.
  intros H%finite_fin. by exists a, b.
Qed.

Lemma sub_zero_eqb hi lo q :
  PyFloat.sub hi lo = Fin q → PyFloat.is_zero q = true → PyFloat.eqb hi lo = true.
Proof.
  intros (b & a & -> & -> & ->)%sub_fin Hz. unfold PyFloat.is_zero in Hz.
  apply bool_decide_eq_true in Hz. apply bool_decide_eq_true.
  assert (a = (a - b) + b)%Qc as -> by ring. rewrite Hz. ring.
Qed.

Lemma div_defined x hi lo :
  PyFloat.eqb hi lo = false →
  PyFloat.div x (PyFloat.sub hi lo) = ret (PyFloat.quot x (PyFloat.sub hi lo)).
Proof.
  intros Hne. unfold PyFloat.div.
  destruct (PyFloat.sub hi lo) as [q| | |] eqn:Hs; try reflexivity.
  destruct (PyFloat.is_zero q) eqn:Hz; [|reflexivity].
  rewrite (sub_zero_eqb _ _ _ Hs Hz) in Hne. discriminate.
Qed.

Lemma map_angle_inactive st v i : is_calibrated st = false → map_angle st v i = ret v.
Proof. intros H. unfold map_angle. by rewrite H. Qed.

Lemma map_angle_rescaled st v i lo hi :
  is_calibrated st = true →
  calibration_min st !! i = Some lo →
  calibration_max st !! i = Some hi →
  bounds_set lo hi →
  PyFloat.eqb hi lo = false →
  map_angle st v i = ret (clamp (rescale v lo hi) (PyFloat.of_Z 0) (PyFloat.of_Z 90)).
Proof.
  intros Hc Hlo Hhi [Hl Hh] Hne. unfold map_angle, index.
  rewrite Hc, Hlo, Hhi. simpl.
  apply eqb_PInf in Hl. apply eqb_NInf in Hh. rewrite Hl, Hh, Hne. simpl.
  rewrite (div_defined _ _ _ Hne). reflexivity.
Qed.

Lemma map_angle_sentinel st v i lo hi :
  calibration_min st !! i = Some lo →
  calibration_max st !! i = Some hi →
  lo = PInf ∨ hi = NInf →
  map_angle st v i = ret v.
Proof.
  intros Hlo Hhi Hs. unfold map_angle, index.
  destruct (is_calibrated st); [|done]. rewrite Hlo, Hhi. simpl.
  destruct Hs as [-> | ->]; simpl; [done|]. by rewrite orb_true_r.
Qed.

(** Order facts on [Qc] through the underlying rationals. *)
Ltac qc_order :=
  repeat match goal with
         | H : ¬ (_ < _)%Qc |- _ => apply Qcnot_lt_le in H
         | H : ¬ (_ <= _)%Qc |- _ => apply Qcnot_le_lt in H
         end;
  unfold Qcle, Qclt in *; cbn in *; lra.

Lemma leb_fin a b : PyFloat.leb (Fin a) (Fin b) = true ↔ (a <= b)%Qc.
Proof.
  unfold PyFloat.leb. simpl. split.
  - intros [H|H]%orb_true_iff; apply bool_decide_eq_true in H.
    + by apply Qclt_le_weak.
    + subst. apply Qcle_refl.
  - intros [H| ->]%Qcle_lt_or_eq; apply orb_true_iff; [left|right];
      by apply bool_decide_eq_true.
Qed.

Lemma clamp_bounds x :
  let r := clamp x (PyFloat.of_Z 0) (PyFloat.of_Z 90) in
  PyFloat.leb (PyFloat.of_Z 0) r = true ∧ PyFloat.leb r (PyFloat.of_Z 90) = true.
Proof.
  destruct x as [q| | |]; try (split; vm_compute; reflexivity).
  unfold clamp, PyFloat.py_max, PyFloat.py_min, PyFloat.of_Z. simpl.
  destruct (bool_decide (q < Qc_of_Z 90)%Qc) eqn:H1; simpl.
  - apply bool_decide_eq_true in H1.
    destruct (bool_decide (Qc_of_Z 0 < q)%Qc) eqn:H2.
    + apply bool_decide_eq_true in H2. rewrite !leb_fin. split; qc_order.
    + split; vm_compute; reflexivity.
  - split; vm_compute; reflexivity.
Qed.

Lemma leb_ninf x : x ≠ NaN → PyFloat.leb NInf x = true.
Proof. by destruct x. Qed.

Lemma leb_pinf x : x ≠ NaN → PyFloat.leb x PInf = true.
Proof. by destruct x. Qed.

(** Saturation keeps the order. *)
Lemma finite_mono q1 q2 :
  (q1 <= q2)%Qc → PyFloat.leb (PyFloat.finite q1) (PyFloat.finite q2) = true.
Proof.
  intros Hle. unfold PyFloat.finite.
  destruct (decide (PyFloat.overflow_threshold <= q1)%Qc) as [H1|H1].
  { rewrite (bool_decide_eq_true_2 _ H1).
    rewrite (bool_decide_eq_true_2 _ (Qcle_trans _ _ _ H1 Hle)). reflexivity. }
  rewrite (bool_decide_eq_false_2 _ H1).
  destruct (decide (q1 <= - PyFloat.overflow_threshold)%Qc) as [H2|H2].
  { rewrite (bool_decide_eq_true_2 _ H2). repeat case_bool_decide; reflexivity. }
  rewrite (bool_decide_eq_false_2 _ H2).
  destruct (decide (PyFloat.overflow_threshold <= q2)%Qc) as [H3|H3].
  { rewrite (bool_decide_eq_true_2 _ H3). reflexivity. }
  rewrite (bool_decide_eq_false_2 _ H3).
  destruct (decide (q2 <= - PyFloat.overflow_threshold)%Qc) as [H4|H4].
  { destruct H2. by eapply Qcle_trans. }
  rewrite (bool_decide_eq_false_2 _ H4). by apply leb_fin.
Qed.

(** Each step of the rescaling keeps the order of its argument. *)
Lemma sub_mono v1 v2 a :
  PyFloat.leb v1 v2 = true →
  PyFloat.leb (PyFloat.sub v1 (Fin a)) (PyFloat.sub v2 (Fin a)) = true.
Proof.
  destruct v1 as [x1| | |], v2 as [x2| | |]; try discriminate; simpl; intros Hle;
    try reflexivity;
    try (apply leb_pinf, finite_not_nan); try (apply leb_ninf, finite_not_nan).
  apply finite_mono. apply leb_fin in Hle.
  unfold Qcminus. by apply Qcplus_le_mono_r.
Qed.

Lemma is_neg_pos (d : Qc) : (0 < d)%Qc → PyFloat.is_neg d = false.
Proof.
  intros H. unfold PyFloat.is_neg. apply bool_decide_eq_false.
  by apply Qcle_not_lt, Qclt_le_weak.
Qed.

Lemma is_neg_neg (d : Qc) : (d < 0)%Qc → PyFloat.is_neg d = true.
Proof. intros H. unfold PyFloat.is_neg. by apply bool_decide_eq_true. Qed.

Lemma quot_mono x1 x2 d :
  (0 < d)%Qc → PyFloat.leb x1 x2 = true →
  PyFloat.leb (PyFloat.quot x1 (Fin d)) (PyFloat.quot x2 (Fin d)) = true.
Proof.
  intros Hd.
  destruct x1 as [q1| | |], x2 as [q2| | |]; try discriminate; simpl;
    rewrite ?(is_neg_pos d Hd); simpl; intros Hle; try reflexivity;
    try (apply leb_pinf, finite_not_nan); try (apply leb_ninf, finite_not_nan).
  apply finite_mono. apply leb_fin in Hle.
  unfold Qcdiv. apply Qcmult_le_compat_r; [done|].
  by apply Qclt_le_weak, Qcinv_pos.
Qed.

Lemma quot_anti x1 x2 d :
  (d < 0)%Qc → PyFloat.leb x1 x2 = true →
  PyFloat.leb (PyFloat.quot x2 (Fin d)) (PyFloat.quot x1 (Fin d)) = true.
Proof.
  intros Hd.
  destruct x1 as [q1| | |], x2 as [q2| | |]; try discriminate; simpl;
    rewrite ?(is_neg_neg d Hd); simpl; intros Hle; try reflexivity;
    try (apply leb_pinf, finite_not_nan); try (apply leb_ninf, finite_not_nan).
  apply finite_mono. apply leb_fin in Hle.
  assert (d ≠ 0)%Qc as Hne by (by apply Qclt_not_eq).
  assert (- d ≠ 0)%Qc as Hne'.
  { intros H0. apply Hne. assert (d = - - d)%Qc as -> by ring. rewrite H0. ring. }
  assert (∀ q, (q / d = (- q) / (- d))%Qc) as Hflip by (intros q; field; done).
  rewrite (Hflip q1), (Hflip q2).
  unfold Qcdiv. apply Qcmult_le_compat_r; [by apply Qcopp_le_compat|].
  apply Qclt_le_weak, Qcinv_pos.
  apply Qclt_minus_iff in Hd. by rewrite Qcplus_0_l in Hd.
Qed.

Lemma mul_90_mono x1 x2 :
  PyFloat.leb x1 x2 = true →
  PyFloat.leb (PyFloat.mul x1 (PyFloat.of_Z 90)) (PyFloat.mul x2 (PyFloat.of_Z 90)) = true.
Proof.
  destruct x1 as [q1| | |], x2 as [q2| | |]; try discriminate;
    unfold PyFloat.of_Z; simpl; intros Hle; try reflexivity;
    try (apply leb_pinf, finite_not_nan); try (apply leb_ninf, finite_not_nan).
  apply finite_mono. apply leb_fin in Hle.
  apply Qcmult_le_compat_r; [done|by vm_compute].
Qed.

Lemma clamp_mono y1 y2 :
  PyFloat.leb y1 y2 = true →
  PyFloat.leb (clamp y1 (PyFloat.of_Z 0) (PyFloat.of_Z 90))
              (clamp y2 (PyFloat.of_Z 0) (PyFloat.of_Z 90)) = true.
Proof.
  destruct y1 as [q1| | |], y2 as [q2| | |]; try discriminate; intros Hle;
    try apply leb_fin in Hle;
    try (vm_compute; reflexivity);
    try (change (clamp PInf _ _) with (PyFloat.of_Z 90); apply clamp_bounds);
    try (change (clamp NInf _ _) with (PyFloat.of_Z 0); apply clamp_bounds).
  unfold clamp, PyFloat.py_max, PyFloat.py_min, PyFloat.of_Z. simpl.
  repeat (case_bool_decide; simpl); rewrite ?leb_fin; try qc_order;
    try (vm_compute; reflexivity); try (by vm_compute).
Qed.

Lemma rescale_from_ninf v b : rescale v NInf (Fin b) = NaN.
Proof. by destruct v. Qed.

Lemma rescaled_bounds v lo hi :
  PyFloat.leb (PyFloat.of_Z 0) (rescaled v lo hi) = true
  ∧ PyFloat.leb (rescaled v lo hi) (PyFloat.of_Z 90) = true.
Proof. apply clamp_bounds. Qed.

(** With a positive finite divisor the clamped rescaling is monotone. *)
Lemma rescaled_mono v1 v2 lo hi d :
  PyFloat.sub hi lo = Fin d → (0 < d)%Qc →
  PyFloat.leb v1 v2 = true →
  PyFloat.leb (rescaled v1 lo hi) (rescaled v2 lo hi) = true.
Proof.
  intros Hsub Hd Hle. unfold rescaled, rescale. rewrite Hsub.
  destruct (sub_fin _ _ _ Hsub) as (a & b & -> & -> & _).
  by apply clamp_mono, mul_90_mono, quot_mono, sub_mono.
Qed.

(** With a negative finite divisor it is antitone. *)
Lemma rescaled_anti v1 v2 lo hi d :
  PyFloat.sub hi lo = Fin d → (d < 0)%Qc →
  PyFloat.leb v1 v2 = true →
  PyFloat.leb (rescaled v2 lo hi) (rescaled v1 lo hi) = true.
Proof.
  intros Hsub Hd Hle. unfold rescaled, rescale. rewrite Hsub.
  destruct (sub_fin _ _ _ Hsub) as (a & b & -> & -> & _).
  by apply clamp_mono, mul_90_mono, quot_anti, sub_mono.
Qed.

Section mapM.
Context {A B : Type} (f : A → result B).

Lemma mapM_inr l bs : mapM f l = inr bs ↔ Forall2 (λ a b, f a = inr b) l bs.
Proof.
  split.
  - revert bs. induction l as [|a l IH]; intros bs; simpl.
    + intros [= <-]. constructor.
    + destruct (f a) as [e|b] eqn:Hfa; simpl; [done|].
      destruct (mapM f l) as [e|bs'] eqn:Hl; simpl; [done|].
      intros [= <-]. constructor; [done | by apply IH].
  - induction 1 as [|a b l bs' Hab _ IH]; simpl; [done|].
    rewrite Hab. simpl. rewrite IH. done.
Qed.

Lemma mapM_total l :
  Forall (λ a, ∃ b, f a = inr b) l → ∃ bs, mapM f l = inr bs.
Proof.
  induction 1 as [|a l [b Hb] _ [bs Hbs]]; simpl; [by eexists|].
  rewrite Hb. simpl. rewrite Hbs. by eexists.
Qed.

Lemma mapM_raises l :
  Exists (λ a, ∃ e, f a = inl e) l → ∃ e, mapM f l = inl e.
Proof.
  induction 1 as [a l [e He]|a l _ [e He]]; simpl.
  - rewrite He. by eexists.
  - destruct (f a); simpl; [by eexists|]. rewrite He. by eexists.
Qed.
End mapM.

Lemma enumerate_lookup {A} (l : list A) i p :
  enumerate l !! i = Some p ↔ p.1 = i ∧ l !! i = Some p.2.
Proof.
  unfold enumerate. destruct p as [k a]. simpl.
  rewrite lookup_zip_with_Some. split.
  - intros (k' & a' & [= -> ->] & Hk & Ha).
    apply lookup_seq in Hk as [-> _]. done.
  - intros [-> Ha]. exists i, a. split_and!; [done| |done].
    apply lookup_seq. split; [done|]. by eapply lookup_lt_Some.
Qed.

Section parse.
Variable float_of_str : string → option pyfloat.

Lemma parse_part_inr part v :
  parse_part float_of_str part = inr v ↔ segment_value float_of_str part v.
Proof.
  unfold parse_part, segment_value, index.
  destruct (PyStr.split "=" part !! 1%nat) as [field|]; simpl.
  - destruct (float_of_str field) as [w|] eqn:Hf; split.
    + intros [= <-]. by exists field.
    + intros (? & [= <-] & ?). congruence.
    + done.
    + intros (? & [= <-] & ?). congruence.
  - split; [done | by intros (? & ? & ?)].
Qed.

Lemma parse_part_inl part :
  (∀ v, ¬ segment_value float_of_str part v) → ∃ e, parse_part float_of_str part = inl e.
Proof.
  intros Hno. destruct (parse_part float_of_str part) as [e|v] eqn:Hp; [by eexists|].
  apply parse_part_inr in Hp. by destruct (Hno v).
Qed.

Lemma mapM_parse_part parts angles :
  mapM (parse_part float_of_str) parts = inr angles
  ↔ Forall2 (segment_value float_of_str) parts angles.
Proof.
  rewrite mapM_inr. split; intros HF;
    (eapply Forall2_impl; [intros part v; apply parse_part_inr | exact HF]).
Qed.

Lemma parse_angles_Some data angles :
  parse_angles float_of_str data = Some angles ↔
  length (PyStr.split "," (PyStr.strip data)) = 14%nat
  ∧ Forall2 (segment_value float_of_str) (PyStr.split "," (PyStr.strip data)) angles.
Proof.
  unfold parse_angles. rewrite <-mapM_parse_part.
  destruct (length _ =? 14)%nat eqn:Hlen; simpl.
  - apply Nat.eqb_eq in Hlen.
    destruct (mapM _ _) as [e|vs]; split; try done.
    + by intros [_ ?].
    + intros [= <-]. done.
    + intros [_ [= <-]]. done.
  - apply Nat.eqb_neq in Hlen. split; [done | by intros [? _]].
Qed.

Lemma parse_angles_None data :
  length (PyStr.split "," (PyStr.strip data)) ≠ 14%nat
  ∨ Exists (λ part, ∀ v, ¬ segment_value float_of_str part v)
           (PyStr.split "," (PyStr.strip data)) →
  parse_angles float_of_str data = None.
Proof.
  unfold parse_angles. intros [Hlen|Hex].
  - apply Nat.eqb_neq in Hlen. by rewrite Hlen.
  - destruct (length _ =? 14)%nat; [simpl|done].
    destruct (mapM_raises (parse_part float_of_str) (PyStr.split "," (PyStr.strip data))) as [e ->]; [|done].
    eapply Exists_impl; [|exact Hex]. intros part Hno. by apply parse_part_inl.
Qed.

Lemma parse_angles_length data angles :
  parse_angles float_of_str data = Some angles → length angles = 14%nat.
Proof.
  intros [Hlen HF]%parse_angles_Some. by rewrite <-(Forall2_length HF).
Qed.
End parse.

Lemma map_angle_total st v i :
  (i < length (calibration_min st))%nat →
  (i < length (calibration_max st))%nat →
  ∃ r, map_angle st v i = inr r.
Proof.
  intros [lo Hlo]%lookup_lt_is_Some [hi Hhi]%lookup_lt_is_Some.
  unfold map_angle, index. destruct (is_calibrated st); [|by eexists].
  rewrite Hlo, Hhi. simpl.
  destruct (_ || _); [by eexists|].
  destruct (PyFloat.eqb hi lo) eqn:He; [by eexists|].
  rewrite (div_defined _ _ _ He). by eexists.
Qed.

Lemma enumerate_length {A} (l : list A) : length (enumerate l) = length l.
Proof. unfold enumerate. rewrite length_zip_with, length_seq. lia. Qed.

Lemma map_angles_inr st angles mapped :
  map_angles st angles = inr mapped →
  length mapped = length angles
  ∧ ∀ i a, angles !! i = Some a → ∃ m, mapped !! i = Some m ∧ map_angle st a i = inr m.
Proof.
  unfold map_angles. intros HF%mapM_inr. split.
  - by rewrite <-(Forall2_length HF), enumerate_length.
  - intros i a Ha.
    assert (enumerate angles !! i = Some (i, a)) as Hp by by apply enumerate_lookup.
    destruct (Forall2_lookup_l _ _ _ _ _ HF Hp) as (m & Hm & Hma). by exists m.
Qed.

Lemma mapM_zip_snd {K A} (f : K * A → result A) (ks : list K) (l : list A) :
  (∀ p, f p = inr p.2) → length ks = length l → mapM f (zip ks l) = inr l.
Proof.
  intros Hf. revert ks. induction l as [|a l IH]; intros [|k ks] Hlen;
    try discriminate; simpl; [done|].
  rewrite Hf. simpl. rewrite IH by (simpl in Hlen; lia). done.
Qed.

Lemma map_angles_total st angles :
  calibration_sized st → length angles = 14%nat →
  ∃ mapped, map_angles st angles = inr mapped.
Proof.
  intros [Hmin Hmax] Hlen. apply mapM_total, Forall_lookup.
  intros i [k a] [-> Ha%lookup_lt_Some]%enumerate_lookup. simpl in *.
  apply map_angle_total; lia.
Qed.

Lemma map_angles_inactive st angles :
  is_calibrated st = false → map_angles st angles = inr angles.
Proof.
  intros Hc. unfold map_angles, enumerate. apply mapM_zip_snd.
  - intros p. by apply map_angle_inactive.
  - by rewrite length_seq.
Qed.

Section parse.
Variable float_of_str : string → option pyfloat.

Lemma parse_serial_data_reject st data :
  parse_angles float_of_str data = None →
  parse_serial_data float_of_str st data = (st, None).
Proof. intros H. unfold parse_serial_data. by rewrite H. Qed.

Lemma parse_serial_data_accept st data angles :
  parse_angles float_of_str data = Some angles →
  calibration_sized st →
  ∃ mapped,
    map_angles st angles = inr mapped
    ∧ parse_serial_data float_of_str st data
      = (assign_fingers mapped (set_current_raw_angles (Some angles) st), Some true).
Proof.
  intros Hp Hs. unfold parse_serial_data. rewrite Hp.
  destruct (map_angles_total st angles Hs) as [mapped Hm];
    [by eapply parse_angles_length|].
  exists mapped. split; [done|].
  change (map_angles (set_current_raw_angles (Some angles) st) angles)
    with (map_angles st angles).
  by rewrite Hm.
Qed.

Lemma parse_serial_data_raw st data angles :
  parse_angles float_of_str data = Some angles →
  current_raw_angles (parse_serial_data float_of_str st data).1 = Some angles.
Proof.
  intros Hp. unfold parse_serial_data. rewrite Hp.
  by destruct (map_angles _ _).
Qed.
End parse.

Lemma slices_14 {A} (m : list A) :
  length m = 14%nat →
  ∃ m0 m1 m2 m3 m4 m5 m6 m7 m8 m9 m10 m11 m12 m13,
    m = [m0; m1; m2; m3; m4; m5; m6; m7; m8; m9; m10; m11; m12; m13].
Proof.
  intros H. do 14 (destruct m as [|? m]; [discriminate|]).
  destruct m; [|discriminate]. by repeat eexists.
Qed.

(** ** The class namespace *)

Lemma serial_read_thread_binding : class_namespace !! "serial_read_thread" = Some 788%nat.
Proof. reflexivity. Qed.

Lemma start_serial_thread_missing : class_namespace !! "start_serial_thread" = None.
Proof. reflexivity. Qed.

Lemma call_start_serial_thread_raises st :
  call_start_serial_thread st = (st, Some AttributeError).
Proof. reflexivity. Qed.

Lemma serial_read_thread_is_788 f buffer st :
  serial_read_thread f buffer st = (buffer, serial_read_thread_788 f st).
Proof. reflexivity. Qed.


(** ** Connection *)

Lemma connected_close port : connected (close port) = false.
Proof. by destruct port. Qed.

Lemma connect_failed_closed st :
  connected (angle_serial (connect_failed st)) = false
  ∧ connected (pressure_serial (connect_failed st)) = false
  ∧ connect_btn (connect_failed st) = "连接"
  ∧ thread_running (connect_failed st) = thread_running st
  ∧ serial_thread (connect_failed st) = serial_thread st.
Proof.
  unfold connect_failed.
  destruct (connected (angle_serial st)) eqn:Ha;
    destruct (connected (pressure_serial st)) eqn:Hp; simpl;
    rewrite ?Ha, ?Hp; simpl; rewrite ?connected_close, ?Ha, ?Hp; done.
Qed.

(** The [try] body of the connect branch never completes. *)
Lemma connect_body_raises openable angle_port pressure_port st :
  ∃ st' e,
    (open_angle openable angle_port ;;; open_pressure openable pressure_port ;;;
     show_disconnect ;;; call_start_serial_thread) st = (st', Some e)
    ∧ thread_running st' = thread_running st
    ∧ serial_thread st' = serial_thread st
    ∧ (e = AttributeError ∨ e = SerialException)
    ∧ ((PyStr.is_empty angle_port = false → openable angle_port = true) →
       (PyStr.is_empty pressure_port = false → openable pressure_port = true) →
       e = AttributeError).
Proof.
  unfold then_, open_angle, open_pressure, open_serial, show_disconnect.
  destruct (PyStr.is_empty angle_port), (openable angle_port),
    (PyStr.is_empty pressure_port), (openable pressure_port); simpl;
    eexists _, _; (split; [reflexivity|]); simpl; split_and!; auto;
    intros H1 H2; try done; try (by discriminate H1); by discriminate H2.
Qed.

Lemma toggle_connection_fails openable angle_port pressure_port st :
  connected (angle_serial st) = false →
  connected (pressure_serial st) = false →
  PyStr.is_empty angle_port && PyStr.is_empty pressure_port = false →
  ∃ st' e,
    toggle_connection openable angle_port pressure_port st = (st', ShowError e)
    ∧ connected (angle_serial st') = false
    ∧ connected (pressure_serial st') = false
    ∧ connect_btn st' = "连接"
    ∧ thread_running st' = thread_running st
    ∧ serial_thread st' = serial_thread st
    ∧ ((PyStr.is_empty angle_port = false → openable angle_port = true) →
       (PyStr.is_empty pressure_port = false → openable pressure_port = true) →
       e = AttributeError).
Proof.
  intros Ha Hp Hsel. unfold toggle_connection. rewrite Ha, Hp, Hsel. simpl.
  destruct (connect_body_raises openable angle_port pressure_port st)
    as (st' & e & -> & Htr & Hth & _ & He).
  destruct (connect_failed_closed st') as (? & ? & ? & ? & ?).
  exists (connect_failed st'), e. split_and!; auto; congruence.
Qed.

Lemma toggle_connection_idle openable angle_port pressure_port st :
  idle st → idle (toggle_connection openable angle_port pressure_port st).1.
Proof.
  intros (Htr & Hth & Ha & Hp).
  destruct (PyStr.is_empty angle_port && PyStr.is_empty pressure_port) eqn:Hsel.
  - unfold toggle_connection. rewrite Ha, Hp, Hsel. simpl. by repeat split.
  - destruct (toggle_connection_fails openable angle_port pressure_port st Ha Hp Hsel)
      as (st' & e & -> & ? & ? & ? & ? & ? & _).
    simpl. repeat split; congruence.
Qed.

Lemma receive_connected data port : connected (receive data port) = connected port.
Proof. destruct port as [[[] ?]|]; reflexivity. Qed.

Section invariants.
Variable float_of_str : string → option pyfloat.

Lemma run_from_snoc p evs ev :
  run_from float_of_str p (evs ++ [ev]) = step float_of_str ev (run_from float_of_str p evs).
Proof. unfold run_from. by rewrite foldl_app. Qed.

(** A property kept by every event holds after any number of them. *)
Lemma run_from_invariant (P : visualizer * string → Prop) p evs :
  (∀ ev q, P q → P (step float_of_str ev q)) → P p → P (run_from float_of_str p evs).
Proof.
  intros Hstep. revert p. induction evs as [|ev evs IH]; intros p Hp; [done|].
  simpl. apply IH, Hstep, Hp.
Qed.

Lemma step_idle ev p : idle p.1 → idle (step float_of_str ev p).1.
Proof.
  destruct p as [st buffer]. simpl. intros Hidle.
  pose proof Hidle as (Htr & Hth & Ha & Hp).
  destruct ev as [openable ap pp| | | |fps|n|pressure data|]; simpl.
  - by apply toggle_connection_idle.
  - unfold set_min_values. by rewrite Ha.
  - unfold set_max_values. by rewrite Ha.
  - done.
  - unfold update_frequency. destruct (update_locked st) as [[]|], fps as [fps|];
      try done; destruct (0 <? fps); done.
  - destruct (timers st !! n) as [[ms cb]|]; [|done]. simpl.
    destruct cb; simpl; try done.
    + unfold update. simpl. by destruct (updating st).
    + unfold update_visualization. simpl. by rewrite Htr.
  - destruct pressure; simpl; repeat split; simpl; try done;
      by rewrite receive_connected.
  - by rewrite Hth.
Qed.

Lemma execute_idle evs : idle (execute float_of_str evs).1.
Proof.
  apply (run_from_invariant (λ p, idle p.1)).
  - intros ev q. apply step_idle.
  - by repeat split.
Qed.
End invariants.

(** ** What the angle branch touches *)

Section read_angle.
Variable float_of_str : string → option pyfloat.

(** [parse_serial_data] writes [current_raw_angles] and [angle_data]
    only. *)
Lemma parse_serial_data_frame st data :
  ∃ raw fingers,
    (parse_serial_data float_of_str st data).1
    = set_angle_data fingers (set_current_raw_angles raw st).
Proof.
  unfold parse_serial_data. destruct (parse_angles _ _) as [angles|]; simpl.
  - destruct (map_angles _ _) as [e|mapped]; simpl.
    + exists (Some angles), (angle_data st). by destruct st.
    + by eexists _, _.
  - exists (current_raw_angles st), (angle_data st). by destruct st.
Qed.

(** [read_angle] writes the angle port, [current_raw_angles] and
    [angle_data], and appends at most one [True] to the queue. *)
Lemma read_angle_frame st :
  ∃ port raw fingers signal,
    read_angle float_of_str st
    = set_data_queue (data_queue st ++ signal)
        (set_angle_data fingers (set_current_raw_angles raw (set_angle_serial port st)))
    ∧ (signal = [] ∨ signal = [QTrue])
    ∧ connected port = connected (angle_serial st).
Proof.
  unfold read_angle.
  assert (∃ port raw fingers signal,
    st = set_data_queue (data_queue st ++ signal)
           (set_angle_data fingers (set_current_raw_angles raw (set_angle_serial port st)))
    ∧ (signal = [] ∨ signal = [QTrue])
    ∧ connected port = connected (angle_serial st)) as Hsame.
  { exists (angle_serial st), (current_raw_angles st), (angle_data st), [].
    split_and!; [|by left|done]. rewrite app_nil_r. by destruct st. }
  destruct (angle_serial st) as [port|] eqn:Hport; [|done].
  destruct (is_open port) eqn:Hopen; [|done]. simpl.
  destruct (in_waiting port); [|done].
  destruct (readline (in_buffer port)) as [line rest].
  set (st1 := set_angle_serial _ st).
  destruct (negb (PyStr.is_empty (PyStr.strip line))).
  - destruct (parse_serial_data_frame st1 (PyStr.strip line)) as (raw & fingers & Hst).
    destruct (parse_serial_data float_of_str st1 (PyStr.strip line)) as [st2 [[]|]];
      simpl in Hst; subst st2.
    + eexists _, raw, fingers, [QTrue]. split_and!; [reflexivity|by right|by rewrite Hopen].
    + exists (Some {| is_open := true; in_buffer := rest |}), raw, fingers, []. split_and!; [|by left|by rewrite Hopen].
      unfold st1. simpl. by rewrite app_nil_r.
    + exists (Some {| is_open := true; in_buffer := rest |}), raw, fingers, []. split_and!; [|by left|by rewrite Hopen].
      unfold st1. simpl. by rewrite app_nil_r.
  - exists (Some {| is_open := true; in_buffer := rest |}), (current_raw_angles st), (angle_data st), [].
    split_and!; [|by left|by rewrite Hopen]. unfold st1. simpl. by rewrite app_nil_r.
Qed.
End read_angle.

(** ** The queue never carries pressure values *)

Lemma drain_signals queue pressure :
  Forall (λ item, item = QTrue) queue → drain queue pressure = pressure.
Proof. induction 1 as [|item queue -> _ IH]; simpl; done. Qed.

Lemma same_connection st :
  st = set_connect_btn (connect_btn st) (set_pressure_serial (pressure_serial st)
         (set_angle_serial (angle_serial st) (set_thread_running (thread_running st) st))).
Proof. by destruct st. Qed.

Lemma connect_body_frame openable angle_port pressure_port st :
  ∃ angle pressure btn e,
    (open_angle openable angle_port ;;; open_pressure openable pressure_port ;;;
     show_disconnect ;;; call_start_serial_thread) st
    = (set_connect_btn btn (set_pressure_serial pressure (set_angle_serial angle
         (set_thread_running (thread_running st) st))), Some e).
Proof.
  unfold then_, open_angle, open_pressure, open_serial, show_disconnect.
  destruct (PyStr.is_empty angle_port), (openable angle_port),
    (PyStr.is_empty pressure_port), (openable pressure_port); simpl;
    rewrite ?call_start_serial_thread_raises;
    destruct st; eexists _, _, _, _;
    unfold set_connect_btn, set_pressure_serial, set_angle_serial,
      set_thread_running; simpl; reflexivity.
Qed.

Lemma connect_failed_frame st :
  ∃ angle pressure,
    connect_failed st
    = set_connect_btn "连接" (set_pressure_serial pressure (set_angle_serial angle st)).
Proof.
  unfold connect_failed.
  exists (if connected (angle_serial st) then close (angle_serial st) else angle_serial st),
    (if connected (pressure_serial st) then close (pressure_serial st)
     else pressure_serial st).
  destruct (connected (angle_serial st)) eqn:Ha;
    destruct (connected (pressure_serial st)) eqn:Hp; simpl; rewrite ?Ha, ?Hp;
    by destruct st.
Qed.

Lemma toggle_connection_frame openable angle_port pressure_port st :
  ∃ running angle pressure btn,
    (toggle_connection openable angle_port pressure_port st).1
    = set_connect_btn btn (set_pressure_serial pressure
        (set_angle_serial angle (set_thread_running running st))).
Proof.
  unfold toggle_connection, stop_serial_thread.
  destruct (connected (angle_serial st) || connected (pressure_serial st)).
  - simpl.
    exists false,
      (if connected (angle_serial st) then close (angle_serial st) else angle_serial st),
      (if connected (pressure_serial st) then close (pressure_serial st)
       else pressure_serial st),
      "连接"%string.
    destruct (connected (angle_serial st)) eqn:Ha;
      destruct (connected (pressure_serial st)) eqn:Hp; simpl; rewrite ?Ha, ?Hp;
      reflexivity.
  - destruct (_ && _).
    { simpl. exists (thread_running st), (angle_serial st), (pressure_serial st),
        (connect_btn st). by destruct st. }
    destruct (connect_body_frame openable angle_port pressure_port st)
      as (angle & pressure & btn & e & ->).
    destruct (connect_failed_frame
      (set_connect_btn btn (set_pressure_serial pressure (set_angle_serial angle
         (set_thread_running (thread_running st) st))))) as (angle' & pressure' & ->).
    by exists (thread_running st), angle', pressure', "连接"%string.
Qed.

Section quiet.
Variable float_of_str : string → option pyfloat.

Lemma read_angle_no_pressure st :
  no_pressure st → no_pressure (read_angle float_of_str st).
Proof.
  intros [Hq Hp].
  destruct (read_angle_frame float_of_str st) as (port & raw & fingers & signal & -> & Hs & _).
  split; simpl; [|done]. apply Forall_app. split; [done|].
  destruct Hs as [-> | ->]; repeat constructor.
Qed.

Lemma step_no_pressure ev p : no_pressure p.1 → no_pressure (step float_of_str ev p).1.
Proof.
  destruct p as [st buffer]. simpl. intros [Hq Hp].
  destruct ev as [openable ap pp| | | |fps|n|pressure data|]; simpl.
  - destruct (toggle_connection_frame openable ap pp st) as (? & ? & ? & ? & ->).
    by split.
  - unfold set_min_values. by destruct (negb _).
  - unfold set_max_values. by destruct (negb _).
  - by split.
  - unfold update_frequency. destruct (update_locked st) as [[]|], fps as [fps|];
      try done; destruct (0 <? fps); done.
  - destruct (timers st !! n) as [[ms cb]|]; [|done]. simpl.
    destruct cb; simpl; try done.
    + unfold update. simpl. destruct (updating st); simpl; split; simpl; done.
    + unfold update_visualization. simpl. rewrite (drain_signals _ _ Hq).
      destruct (thread_running st); split; simpl; done.
  - by destruct pressure.
  - destruct (serial_thread st); [|done]. destruct (thread_running st); [|done].
    rewrite serial_read_thread_is_788. simpl.
    by apply read_angle_no_pressure.
Qed.

Lemma execute_no_pressure evs : no_pressure (execute float_of_str evs).1.
Proof.
  apply (run_from_invariant float_of_str (λ p, no_pressure p.1)).
  - intros ev q. apply step_no_pressure.
  - split; [constructor | reflexivity].
Qed.
End quiet.

(** ** The refresh timers *)

Lemma update_frequency_frame fps st :
  ∃ locked interval var extra,
    update_frequency fps st
    = set_timers (timers st ++ extra) (set_fps_var var (set_update_interval interval
        (set_update_locked locked st)))
    ∧ (extra = [] ∨ extra = [(100, CbReleaseUpdateLock)]).
Proof.
  unfold update_frequency, after.
  destruct (update_locked st) as [[]|] eqn:Hl.
  - exists (Some true), (update_interval st), (fps_var st), [].
    split; [|by left]. rewrite app_nil_r. destruct st; simpl in *; by subst.
  - destruct fps as [fps|].
    + exists (Some true), (if 0 <? fps then 1000 / fps else update_interval st),
        (fps_var st), [(100, CbReleaseUpdateLock)].
      split; [|by right]. destruct (0 <? fps); by destruct st.
    + exists (Some true), (update_interval st), "60"%string, [(100, CbReleaseUpdateLock)].
      split; [|by right]. by destruct st.
  - destruct fps as [fps|].
    + exists (Some true), (if 0 <? fps then 1000 / fps else update_interval st),
        (fps_var st), [(100, CbReleaseUpdateLock)].
      split; [|by right]. destruct (0 <? fps); by destruct st.
    + exists (Some true), (update_interval st), "60"%string, [(100, CbReleaseUpdateLock)].
      split; [|by right]. by destruct st.
Qed.

Section timers.
Variable float_of_str : string → option pyfloat.

Lemma step_only_lock_releases ev p :
  idle p.1 ∧ only_lock_releases p.1 →
  only_lock_releases (step float_of_str ev p).1.
Proof.
  destruct p as [st buffer]. simpl. intros [(Htr & Hth & Ha & Hp) Ht].
  unfold only_lock_releases in *.
  destruct ev as [openable ap pp| | | |fps|n|pressure data|]; simpl.
  - by destruct (toggle_connection_frame openable ap pp st) as (? & ? & ? & ? & ->).
  - unfold set_min_values. by destruct (negb _).
  - unfold set_max_values. by destruct (negb _).
  - done.
  - destruct (update_frequency_frame fps st) as (? & ? & ? & extra & -> & Hextra).
    simpl. apply Forall_app. split; [done|].
    destruct Hextra as [-> | ->]; repeat constructor.
  - destruct (timers st !! n) as [[ms cb]|] eqn:Hn; [|done]. simpl.
    assert (cb = CbReleaseUpdateLock) as ->.
    { eapply Forall_lookup_1 in Ht; [|exact Hn]. done. }
    simpl. apply Forall_delete. done.
  - by destruct pressure.
  - by rewrite Hth.
Qed.

Lemma execute_only_lock_releases evs :
  only_lock_releases (execute float_of_str evs).1.
Proof.
  apply (run_from_invariant float_of_str (λ p, idle p.1 ∧ only_lock_releases p.1)).
  - intros ev q H. split; [apply step_idle, H | by apply step_only_lock_releases].
  - split; [by repeat split | constructor].
Qed.
End timers.

(** ** Calibration across events *)

Lemma event_kind ev :
  ev = EvSetMin ∨ ev = EvSetMax ∨ ev = EvResetCalibration
  ∨ (ev ≠ EvSetMin ∧ ev ≠ EvSetMax ∧ ev ≠ EvResetCalibration).
Proof. destruct ev; auto; right; right; right; done. Qed.

Section calibration.
Variable float_of_str : string → option pyfloat.

(** Events other than the three calibration buttons leave the
    calibration untouched. *)
Lemma step_calibration ev p :
  ev ≠ EvSetMin → ev ≠ EvSetMax → ev ≠ EvResetCalibration →
  let st' := (step float_of_str ev p).1 in
  calibration_min st' = calibration_min p.1
  ∧ calibration_max st' = calibration_max p.1
  ∧ is_calibrated st' = is_calibrated p.1.
Proof.
  destruct p as [st buffer]. simpl.
  destruct ev as [openable ap pp| | | |fps|n|pressure data|]; try done; intros _ _ _; simpl.
  - by destruct (toggle_connection_frame openable ap pp st) as (? & ? & ? & ? & ->).
  - by destruct (update_frequency_frame fps st) as (? & ? & ? & ? & -> & _).
  - destruct (timers st !! n) as [[ms cb]|]; [|done]. simpl.
    destruct cb; simpl; try done.
    + unfold update. simpl. by destruct (updating st).
    + unfold update_visualization. simpl. by destruct (thread_running st).
  - by destruct pressure.
  - destruct (serial_thread st); [|done]. destruct (thread_running st); [|done].
    rewrite serial_read_thread_is_788. unfold serial_read_thread_788.
    by destruct (read_angle_frame float_of_str st) as (? & ? & ? & ? & -> & _).
Qed.

Lemma step_set_min p :
  let st' := (step float_of_str EvSetMin p).1 in
  calibration_max st' = calibration_max p.1 ∧ is_calibrated st' = is_calibrated p.1.
Proof. destruct p as [st buffer]. simpl. unfold set_min_values. by destruct (negb _). Qed.

Lemma step_set_max p :
  let st' := (step float_of_str EvSetMax p).1 in
  if connected (angle_serial p.1) then is_calibrated st' = true else st' = p.1.
Proof.
  destruct p as [st buffer]. simpl. unfold set_max_values.
  by destruct (connected (angle_serial st)).
Qed.

(** The flag is raised by "set maximum" alone. *)
Lemma is_calibrated_origin p evs :
  is_calibrated p.1 = false →
  is_calibrated (run_from float_of_str p evs).1 = true →
  ∃ pre post,
    evs = pre ++ EvSetMax :: post
    ∧ connected (angle_serial (run_from float_of_str p pre).1) = true
    ∧ EvResetCalibration ∉ post.
Proof.
  intros Hoff. induction evs as [|ev evs IH] using rev_ind; [simpl; congruence|].
  rewrite run_from_snoc. intros Hon.
  assert (is_calibrated (run_from float_of_str p evs).1 = true →
          ev ≠ EvResetCalibration →
          ∃ pre post, evs ++ [ev] = pre ++ EvSetMax :: post
            ∧ connected (angle_serial (run_from float_of_str p pre).1) = true
            ∧ EvResetCalibration ∉ post) as Hkeep.
  { intros Hbefore Hev. destruct (IH Hbefore) as (pre & post & -> & Hc & Hpost).
    exists pre, (post ++ [ev]). split_and!; [by rewrite <-app_assoc|done|].
    rewrite elem_of_app. intros [?|Hin]; [done|]. apply list_elem_of_singleton in Hin. congruence. }
  destruct (event_kind ev) as [-> | [-> | [-> | (Hmin & Hmax & Hreset)]]].
  - destruct (step_set_min (run_from float_of_str p evs)) as [_ Hsame].
    rewrite Hsame in Hon. by apply Hkeep.
  - pose proof (step_set_max (run_from float_of_str p evs)) as Hstep. simpl in Hstep.
    destruct (connected _) eqn:Hc.
    + exists evs, []. split_and!; [done|done|]. apply not_elem_of_nil.
    + rewrite Hstep in Hon. by apply Hkeep.
  - destruct (run_from float_of_str p evs). simpl in Hon. discriminate.
  - destruct (step_calibration ev (run_from float_of_str p evs) Hmin Hmax Hreset)
      as (_ & _ & Hsame).
    rewrite Hsame in Hon. by apply Hkeep.
Qed.

Lemma step_flag_consistent ev p :
  flag_consistent p.1 → flag_consistent (step float_of_str ev p).1.
Proof.
  unfold flag_consistent. intros Hinv.
  destruct (event_kind ev) as [-> | [-> | [-> | (Hmin & Hmax & Hreset)]]].
  - destruct (step_set_min p) as [-> ->]. done.
  - pose proof (step_set_max p) as Hstep. simpl in Hstep.
    destruct (connected _); [congruence | by rewrite Hstep].
  - by destruct p.
  - destruct (step_calibration ev p Hmin Hmax Hreset) as (_ & -> & ->). done.
Qed.

Lemma current_raw_angles_sized_parse st data :
  (∀ raw, current_raw_angles st = Some raw → length raw = 14%nat) →
  ∀ raw, current_raw_angles (parse_serial_data float_of_str st data).1 = Some raw →
         length raw = 14%nat.
Proof.
  intros Hinv raw. unfold parse_serial_data.
  destruct (parse_angles float_of_str data) as [angles|] eqn:Hp; simpl; [|apply Hinv].
  apply parse_angles_length in Hp.
  destruct (map_angles _ _); simpl; intros [= <-]; done.
Qed.
End calibration.

(** ** Newlines in what the pressure branch reads *)

#[local] Abbreviation nl := "010"%char.

Module PyStrFacts.
Import PyStr.

Lemma contains_app sep s t : contains sep (s +:+ t) = contains sep s || contains sep t.
Proof. induction s as [|c s IH]; simpl; [done|]. by rewrite IH, orb_assoc. Qed.

Lemma no_newline_only_last s : contains nl s = false → newline_only_last s = true.
Proof.
  induction s as [|c s IH]; simpl; [done|].
  intros [Hc Hs]%orb_false_iff. rewrite Hc, IH by done. simpl. apply orb_true_r.
Qed.

Lemma newline_only_last_tail c s :
  newline_only_last (String c s) = true → newline_only_last s = true.
Proof.
  simpl. destruct s as [|c' s]; [done|]. simpl.
  intros [_ H]%andb_true_iff. done.
Qed.

Lemma lstrip_newline_only_last s :
  newline_only_last s = true → newline_only_last (lstrip s) = true.
Proof.
  induction s as [|c s IH]; [done|]. intros H. simpl lstrip.
  destruct (is_space c); [|done]. by apply IH, (newline_only_last_tail c).
Qed.

Lemma rstrip_no_newline s :
  newline_only_last s = true → contains nl (rstrip s) = false.
Proof.
  induction s as [|c s IH]; [done|]. intros H.
  pose proof (IH (newline_only_last_tail c s H)) as Hr. simpl.
  destruct (is_empty (rstrip s) && is_space c) eqn:Hdrop; [done|]. simpl.
  rewrite Hr, orb_false_r.
  destruct (Ascii.eqb c nl) eqn:Hc; [|done].
  apply Ascii.eqb_eq in Hc. subst c.
  simpl in H. destruct s as [|c' s]; [|done]. done.
Qed.

Lemma strip_no_newline s :
  newline_only_last s = true → contains nl (strip s) = false.
Proof. intros H. by apply rstrip_no_newline, lstrip_newline_only_last. Qed.

Lemma split_once_None s : split_once nl s = None ↔ contains nl s = false.
Proof.
  induction s as [|c s IH]; simpl; [done|].
  destruct (Ascii.eqb c nl); simpl; [done|].
  destruct (split_once nl s) as [[h t]|]; [|tauto].
  split; [done|]. intros H. apply IH in H. done.
Qed.

Lemma split_once_Some s h t :
  split_once nl s = Some (h, t) →
  s = h +:+ String nl t ∧ contains nl h = false.
Proof.
  revert h. induction s as [|c s IH]; intros h; simpl; [done|].
  destruct (Ascii.eqb c nl) eqn:Hc.
  - apply Ascii.eqb_eq in Hc. subst c. intros [= <- <-]. done.
  - destruct (split_once nl s) as [[h' t']|]; [|done].
    intros [= <- <-]. destruct (IH h' eq_refl) as [-> Hh]. simpl. by rewrite Hc.
Qed.

End PyStrFacts.

Import PyStrFacts.

Lemma readline_newline_only_last rx : newline_only_last (readline rx).1 = true.
Proof.
  unfold readline. destruct (PyStr.split_once nl rx) as [[line rest]|] eqn:Hs; simpl.
  - apply split_once_Some in Hs as [_ Hline]. clear -Hline.
    induction line as [|c line IH]; [done|]. simpl in *.
    apply orb_false_iff in Hline as [Hc Hline]. rewrite Hc, IH by done.
    simpl. apply orb_true_r.
  - apply no_newline_only_last, split_once_None, Hs.
Qed.

Section pressure.
Variable float_of_str : string → option pyfloat.

(** With no newline in the buffer the extraction loop does nothing. *)
Lemma extract_lines_none fuel buffer st :
  PyStr.contains nl buffer = false → extract_lines fuel buffer st = (buffer, st).
Proof.
  intros H%split_once_None. destruct fuel; simpl; [done|]. by rewrite H.
Qed.

(** The pressure branch never finds a newline in its buffer: both
    strips remove the one that [readline] returns. *)
Lemma read_pressure_silent buffer st :
  PyStr.contains nl buffer = false →
  PyStr.contains nl (read_pressure buffer st).1 = false
  ∧ data_queue (read_pressure buffer st).2 = data_queue st
  ∧ pressure_data (read_pressure buffer st).2 = pressure_data st.
Proof.
  intros Hb. unfold read_pressure.
  destruct (pressure_serial st) as [port|]; [|done].
  destruct (is_open port && in_waiting port); [|done].
  pose proof (readline_newline_only_last (in_buffer port)) as Hline.
  destruct (readline (in_buffer port)) as [line rest]. simpl in Hline.
  destruct (negb _); [|done].
  rewrite extract_lines_none; [simpl|]; rewrite contains_app, Hb; simpl.
  - split; [|done].
    by apply strip_no_newline, no_newline_only_last, strip_no_newline.
  - by apply strip_no_newline, no_newline_only_last, strip_no_newline.
Qed.

Lemma serial_read_thread_369_silent buffer st :
  PyStr.contains nl buffer = false →
  PyStr.contains nl (serial_read_thread_369 float_of_str buffer st).1 = false
  ∧ pressure_frames (serial_read_thread_369 float_of_str buffer st).2 = pressure_frames st.
Proof.
  intros Hb. unfold serial_read_thread_369.
  destruct (read_pressure_silent buffer (read_angle float_of_str st) Hb) as (Hb' & Hq & _).
  split; [done|]. unfold pressure_frames. rewrite Hq.
  destruct (read_angle_frame float_of_str st) as (? & ? & ? & signal & -> & Hs & _).
  simpl. rewrite omap_app. destruct Hs as [-> | ->]; simpl; by rewrite app_nil_r.
Qed.

Lemma passes_369_silent passes buffer st :
  PyStr.contains nl buffer = false →
  let p := Nat.iter passes (λ p, serial_read_thread_369 float_of_str p.1 p.2) (buffer, st) in
  PyStr.contains nl p.1 = false ∧ pressure_frames p.2 = pressure_frames st.
Proof.
  intros Hb. induction passes as [|n [Hn1 Hn2]]; simpl; [done|].
  set (q := Nat.iter n _ _) in *.
  destruct (serial_read_thread_369_silent q.1 q.2 Hn1) as [? Hsame].
  split; [done|]. by rewrite Hsame.
Qed.

Lemma deliver_369_silent passes chunks buffer st :
  PyStr.contains nl buffer = false →
  PyStr.contains nl (deliver_369 float_of_str passes chunks buffer st).1 = false
  ∧ pressure_frames (deliver_369 float_of_str passes chunks buffer st).2 = pressure_frames st.
Proof.
  revert buffer st. induction chunks as [|chunk chunks IH]; intros buffer st Hb; [done|].
  simpl.
  pose proof (passes_369_silent passes buffer
    (set_pressure_serial (receive chunk (pressure_serial st)) st) Hb) as [Hb' Hf'].
  destruct (Nat.iter passes _ _) as [buffer' st']. simpl in *.
  destruct (IH buffer' st' Hb') as [? Hrest]. split; [done|]. by rewrite Hrest.
Qed.
End pressure.

(* ===================================================================== *)
(** * The angle-line parser *)
(* ===================================================================== *)

(** C1.  A line of exactly 14 comma-separated segments, each of the form
    [<label>=<float>], is accepted: the parser yields the 14 values in
    field order, stores them as [current_raw_angles] and, the calibration
    arrays having one entry per channel, returns [True].  A line with
    another number of segments, or with a segment whose value does not
    convert, is rejected: the method returns [None] and the object is
    exactly as before. *)
Theorem parse_serial_data_all_or_nothing
    (float_of_str : string → option pyfloat) (st : visualizer) (data : string) :
  let parts := PyStr.split "," (PyStr.strip data) in
  (length parts = 14%nat →
   Forall (λ part, ∃ value, segment_value float_of_str part value) parts →
   ∃ angles,
     length angles = 14%nat
     ∧ Forall2 (segment_value float_of_str) parts angles
     ∧ parse_angles float_of_str data = Some angles
     ∧ current_raw_angles (parse_serial_data float_of_str st data).1 = Some angles
     ∧ (calibration_sized st →
        (parse_serial_data float_of_str st data).2 = Some true))
  ∧ (length parts ≠ 14%nat
     ∨ Exists (λ part, ∀ value, ¬ segment_value float_of_str part value) parts →
     parse_serial_data float_of_str st data = (st, None)).
Proof.
  intros parts. split.
  - intros Hlen Hall.
    destruct (mapM_total (parse_part float_of_str) parts) as [angles Hm].
    { eapply Forall_impl; [|exact Hall]. intros part [value Hv].
      exists value. by apply parse_part_inr. }
    apply mapM_parse_part in Hm.
    assert (parse_angles float_of_str data = Some angles) as Hp
      by by apply parse_angles_Some.
    exists angles. split_and!; [by eapply parse_angles_length|done|done| |].
    + by apply parse_serial_data_raw.
    + intros Hs. destruct (parse_serial_data_accept _ st data angles Hp Hs)
        as (mapped & _ & ->). done.
  - intros Hbad. by apply parse_serial_data_reject, parse_angles_None.
Qed.

(** Normalise the list of segments of a concrete line. *)
Ltac split_line :=
  match goal with
  | |- context [PyStr.split ?c (PyStr.strip ?data)] =>
      let parts := eval vm_compute in (PyStr.split c (PyStr.strip data)) in
      change (PyStr.split c (PyStr.strip data)) with parts
  end.

Ltac segment_values :=
  repeat (constructor;
          [eexists; eexists; split; [vm_compute; reflexivity|vm_compute; reflexivity]|]);
  try constructor.

Lemma parse_serial_data_all_or_nothing_witness :
  (∃ angles,
     length angles = 14%nat
     ∧ Forall2 (segment_value Decimal.float)
         (PyStr.split "," (PyStr.strip frame_10_to_140)) angles
     ∧ parse_angles Decimal.float frame_10_to_140 = Some angles
     ∧ current_raw_angles (parse_serial_data Decimal.float init frame_10_to_140).1
       = Some angles
     ∧ (calibration_sized init →
        (parse_serial_data Decimal.float init frame_10_to_140).2 = Some true))
  ∧ parse_serial_data Decimal.float init frame_13_fields = (init, None).
Proof.
  split.
  - apply (proj1 (parse_serial_data_all_or_nothing Decimal.float init frame_10_to_140)).
    + vm_compute. reflexivity.
    + split_line. segment_values.
  - apply (proj2 (parse_serial_data_all_or_nothing Decimal.float init frame_13_fields)).
    left. vm_compute. discriminate.
Defined.

Lemma assign_fingers_data mapped st :
  angle_data (assign_fingers mapped st)
  = <["finger_0" := slice 12 14 mapped]>
    (<["finger_4" := slice 9 12 mapped]>
    (<["finger_3" := slice 6 9 mapped]>
    (<["finger_2" := slice 3 6 mapped]>
    (<["finger_1" := slice 0 3 mapped]> (angle_data st))))).
Proof. reflexivity. Qed.

(** C7.  An accepted frame is mapped channel by channel and the 14 mapped
    values are dealt out by fixed index ranges: index finger 0-2, middle
    3-5, ring 6-8, little finger 9-11, thumb 12-13.  With calibration
    inactive the mapped values are the parsed ones, so that the frame
    [C1=10.0,...,C14=140.0] leaves [10, 20, 30] as the index finger. *)
Theorem angle_frame_partition :
  (∀ (float_of_str : string → option pyfloat) st data angles,
     parse_angles float_of_str data = Some angles →
     calibration_sized st →
     ∃ m0 m1 m2 m3 m4 m5 m6 m7 m8 m9 m10 m11 m12 m13,
       let mapped := [m0; m1; m2; m3; m4; m5; m6; m7; m8; m9; m10; m11; m12; m13] in
       let fingers := angle_data (parse_serial_data float_of_str st data).1 in
       map_angles st angles = inr mapped
       ∧ (∀ i a, angles !! i = Some a →
                 ∃ m, mapped !! i = Some m ∧ map_angle st a i = inr m)
       ∧ (is_calibrated st = false → mapped = angles)
       ∧ fingers !! "finger_1" = Some [m0; m1; m2]
       ∧ fingers !! "finger_2" = Some [m3; m4; m5]
       ∧ fingers !! "finger_3" = Some [m6; m7; m8]
       ∧ fingers !! "finger_4" = Some [m9; m10; m11]
       ∧ fingers !! "finger_0" = Some [m12; m13])
  ∧ angle_data (parse_serial_data Decimal.float init frame_10_to_140).1 !! "finger_1"
    = Some (PyFloat.of_Z <$> [10; 20; 30]).
Proof.
  assert (∀ (float_of_str : string → option pyfloat) st data angles,
     parse_angles float_of_str data = Some angles →
     calibration_sized st →
     ∃ m0 m1 m2 m3 m4 m5 m6 m7 m8 m9 m10 m11 m12 m13,
       let mapped := [m0; m1; m2; m3; m4; m5; m6; m7; m8; m9; m10; m11; m12; m13] in
       let fingers := angle_data (parse_serial_data float_of_str st data).1 in
       map_angles st angles = inr mapped
       ∧ (∀ i a, angles !! i = Some a →
                 ∃ m, mapped !! i = Some m ∧ map_angle st a i = inr m)
       ∧ (is_calibrated st = false → mapped = angles)
       ∧ fingers !! "finger_1" = Some [m0; m1; m2]
       ∧ fingers !! "finger_2" = Some [m3; m4; m5]
       ∧ fingers !! "finger_3" = Some [m6; m7; m8]
       ∧ fingers !! "finger_4" = Some [m9; m10; m11]
       ∧ fingers !! "finger_0" = Some [m12; m13]) as Hgen.
  { intros float_of_str st data angles Hp Hs.
    destruct (parse_serial_data_accept _ st data angles Hp Hs) as (mapped & Hm & ->).
    destruct (map_angles_inr _ _ _ Hm) as [Hlen Hpoint].
    rewrite (parse_angles_length _ _ _ Hp) in Hlen.
    destruct (slices_14 mapped Hlen)
      as (m0 & m1 & m2 & m3 & m4 & m5 & m6 & m7 & m8 & m9 & m10 & m11 & m12 & m13 & ->).
    exists m0, m1, m2, m3, m4, m5, m6, m7, m8, m9, m10, m11, m12, m13.
    cbv zeta. split_and!; [done|done| | | | | |].
    1: { intros Hoff. rewrite (map_angles_inactive st angles Hoff) in Hm. congruence. }
    all: cbn [fst]; rewrite assign_fingers_data;
      rewrite ?lookup_insert_ne by done; by rewrite lookup_insert_eq. }
  split; [exact Hgen|].
  destruct (Hgen Decimal.float init frame_10_to_140
              (PyFloat.of_Z <$> [10; 20; 30; 40; 50; 60; 70; 80; 90; 100; 110; 120; 130; 140]))
    as (m0 & m1 & m2 & m3 & m4 & m5 & m6 & m7 & m8 & m9 & m10 & m11 & m12 & m13 & H).
  - apply parse_angles_Some. split; [vm_compute; reflexivity|].
    split_line. simpl fmap.
    repeat (constructor; [eexists; split; [vm_compute; reflexivity|];
                          vm_compute; do 2 f_equal; apply Qc_is_canon; reflexivity|]).
    constructor.
  - split; reflexivity.
  - cbv zeta in H. destruct H as (_ & _ & Hsame & -> & _).
    specialize (Hsame eq_refl). simpl in Hsame. by simplify_eq.
Qed.

Lemma angle_frame_partition_witness :
  ∃ m0 m1 m2 m3 m4 m5 m6 m7 m8 m9 m10 m11 m12 m13,
    let mapped := [m0; m1; m2; m3; m4; m5; m6; m7; m8; m9; m10; m11; m12; m13] in
    let fingers := angle_data (parse_serial_data Decimal.float init frame_zeros).1 in
    map_angles init (PyFloat.of_Z <$> replicate 14 0) = inr mapped
    ∧ (∀ i a, (PyFloat.of_Z <$> replicate 14 0) !! i = Some a →
              ∃ m, mapped !! i = Some m ∧ map_angle init a i = inr m)
    ∧ (is_calibrated init = false → mapped = PyFloat.of_Z <$> replicate 14 0)
    ∧ fingers !! "finger_1" = Some [m0; m1; m2]
    ∧ fingers !! "finger_2" = Some [m3; m4; m5]
    ∧ fingers !! "finger_3" = Some [m6; m7; m8]
    ∧ fingers !! "finger_4" = Some [m9; m10; m11]
    ∧ fingers !! "finger_0" = Some [m12; m13].
Proof.
  apply (proj1 angle_frame_partition Decimal.float init frame_zeros).
  - apply parse_angles_Some. split; [vm_compute; reflexivity|].
    split_line. simpl fmap. simpl replicate.
    repeat (constructor; [eexists; split; [vm_compute; reflexivity|];
                          vm_compute; do 2 f_equal; apply Qc_is_canon; reflexivity|]).
    constructor.
  - split; reflexivity.
Defined.

(* ===================================================================== *)
(** * The calibration map *)
(* ===================================================================== *)

(** Equality of two concrete floats. *)
Ltac float_eq :=
  vm_compute;
  first [ reflexivity
        | do 2 f_equal; apply Qc_is_canon; reflexivity
        | f_equal; apply Qc_is_canon; reflexivity ].

Lemma flag_consistent_active st i hi :
  flag_consistent st → calibration_max st !! i = Some hi → hi ≠ NInf →
  is_calibrated st = true.
Proof.
  intros Hinv Hhi Hne. destruct (is_calibrated st) eqn:Hc; [done|].
  rewrite (Hinv Hc) in Hhi. apply lookup_replicate in Hhi as [-> _]. done.
Qed.

(** C3.  For a channel whose two bounds are set (neither is the sentinel
    of its side) and differ, [map_angle] returns
    [clamp(((v - min) / (max - min)) * 90, 0, 90)] for every value [v].
    After "set minimum" on an all-zero frame and "set maximum" on an
    all-100 frame, channel 0 maps 50 to 45 and 150 to 90. *)
Theorem map_angle_rescales :
  (∀ st i lo hi v,
     flag_consistent st →
     calibration_min st !! i = Some lo →
     calibration_max st !! i = Some hi →
     bounds_set lo hi →
     PyFloat.eqb hi lo = false →
     map_angle st v i = inr (clamp (rescale v lo hi) (PyFloat.of_Z 0) (PyFloat.of_Z 90)))
  ∧ map_angle (calibrated frame_zeros frame_hundreds) (PyFloat.of_Z 50) 0
    = inr (PyFloat.of_Z 45)
  ∧ map_angle (calibrated frame_zeros frame_hundreds) (PyFloat.of_Z 150) 0
    = inr (PyFloat.of_Z 90).
Proof.
  split_and!.
  - intros st i lo hi v Hinv Hlo Hhi Hset Hne.
    apply map_angle_rescaled; try done.
    eapply flag_consistent_active; [done..|apply Hset].
  - float_eq.
  - float_eq.
Qed.

Lemma map_angle_rescales_witness :
  map_angle (calibrated frame_zeros frame_hundreds) (PyFloat.of_Z 50) 0
  = inr (clamp (rescale (PyFloat.of_Z 50) (PyFloat.of_Z 0) (PyFloat.of_Z 100))
           (PyFloat.of_Z 0) (PyFloat.of_Z 90)).
Proof.
  apply (proj1 map_angle_rescales).
  - intros H. vm_compute in H. discriminate.
  - float_eq.
  - float_eq.
  - split; discriminate.
  - vm_compute. reflexivity.
Defined.

(** C4 as stated fails: with the bounds taken in the other order
    (minimum 100, maximum 0) calibration is active and the bounds differ,
    yet the map decreases: 0 goes to 90 and 100 goes to 0. *)
Lemma map_angle_decreasing_counterexample :
  ¬ (∀ st i lo hi v1 v2 r1 r2,
       is_calibrated st = true →
       calibration_min st !! i = Some lo →
       calibration_max st !! i = Some hi →
       PyFloat.eqb hi lo = false →
       PyFloat.leb v1 v2 = true →
       map_angle st v1 i = inr r1 →
       map_angle st v2 i = inr r2 →
       PyFloat.leb r1 r2 = true).
Proof.
  intros Hclaim.
  specialize (Hclaim (calibrated frame_hundreds frame_zeros) 0%nat
                (PyFloat.of_Z 100) (PyFloat.of_Z 0)
                (PyFloat.of_Z 0) (PyFloat.of_Z 100)
                (PyFloat.of_Z 90) (PyFloat.of_Z 0)).
  assert (PyFloat.leb (PyFloat.of_Z 90) (PyFloat.of_Z 0) = false) as Hfalse
    by (vm_compute; reflexivity).
  rewrite Hclaim in Hfalse; [discriminate|..].
  - vm_compute. reflexivity.
  - float_eq.
  - float_eq.
  - vm_compute. reflexivity.
  - vm_compute. reflexivity.
  - float_eq.
  - float_eq.
Qed.

(** Two further ways in which the statement of C4 fails.  After "set
    maximum" alone the flag is set and the bounds differ, but the lower
    bound is still the sentinel and the value passes through
    unchanged, outside [0, 90]. *)
Example map_angle_passes_through_when_min_unset :
  is_calibrated max_only = true
  ∧ calibration_min max_only !! 0%nat = Some PInf
  ∧ calibration_max max_only !! 0%nat = Some NInf
  ∧ map_angle max_only (PyFloat.of_Z 150) 0 = inr (PyFloat.of_Z 150).
Proof. split_and!; vm_compute; reflexivity. Qed.

(** With an infinite upper bound the quotient of an infinite reading is
    NaN, which the clamp sends to 90, while every finite reading goes to
    0. *)
Example map_angle_infinite_max_not_monotone :
  let lo := PyFloat.of_Z 0 in
  PyFloat.ltb lo PInf = true
  ∧ PyFloat.leb NInf (PyFloat.of_Z 5) = true
  ∧ rescaled NInf lo PInf = PyFloat.of_Z 90
  ∧ rescaled (PyFloat.of_Z 5) lo PInf = PyFloat.of_Z 0.
Proof. split_and!; try (vm_compute; reflexivity); float_eq. Qed.

(** Nor is it enough that both bounds are finite and in the right order:
    when their difference overflows ([-2^1023] and [2^1023]) the divisor
    is infinite, every finite quotient is 0 and the quotient of an
    infinite reading is NaN, so minus infinity goes to 90 and 0 goes to
    0. *)
Example map_angle_overflowing_range_not_monotone :
  let lo := PyFloat.of_Z (- 2 ^ 1023) in
  let hi := PyFloat.of_Z (2 ^ 1023) in
  PyFloat.ltb lo hi = true
  ∧ PyFloat.sub hi lo = PInf
  ∧ PyFloat.leb NInf (PyFloat.of_Z 0) = true
  ∧ rescaled NInf lo hi = PyFloat.of_Z 90
  ∧ rescaled (PyFloat.of_Z 0) lo hi = PyFloat.of_Z 0.
Proof. split_and!; try (vm_compute; reflexivity); float_eq. Qed.

(** C4, amended.  For a channel whose bounds are set and differ, the
    result of [map_angle] lies in [0, 90] for every input, infinite and
    NaN readings included.  When moreover min < max and the divisor
    max - min is finite (both bounds are finite and their difference does
    not overflow), [map_angle] is monotonically non-decreasing in its
    input. *)
Theorem map_angle_saturates_and_is_monotone st i lo hi :
  is_calibrated st = true →
  calibration_min st !! i = Some lo →
  calibration_max st !! i = Some hi →
  bounds_set lo hi →
  PyFloat.eqb hi lo = false →
  (∀ v, ∃ r, map_angle st v i = inr r
             ∧ PyFloat.leb (PyFloat.of_Z 0) r = true
             ∧ PyFloat.leb r (PyFloat.of_Z 90) = true)
  ∧ (PyFloat.ltb lo hi = true → (∃ d, PyFloat.sub hi lo = Fin d) →
     ∀ v1 v2, PyFloat.leb v1 v2 = true →
       ∃ r1 r2, map_angle st v1 i = inr r1 ∧ map_angle st v2 i = inr r2
                ∧ PyFloat.leb r1 r2 = true).
Proof.
  intros Hc Hlo Hhi Hset Hne. split.
  - intros v. eexists. split; [by apply map_angle_rescaled|].
    apply (rescaled_bounds v lo hi).
  - intros Hlt [d Hsub] v1 v2 Hle.
    exists (rescaled v1 lo hi), (rescaled v2 lo hi).
    split_and!; [by apply map_angle_rescaled..|].
    apply (rescaled_mono v1 v2 lo hi d Hsub); [|done].
    destruct (sub_fin _ _ _ Hsub) as (a & b & -> & -> & ->).
    apply bool_decide_eq_true in Hlt. by apply Qclt_minus_iff in Hlt.
Qed.

Lemma map_angle_saturates_and_is_monotone_witness :
  let st := calibrated frame_zeros frame_hundreds in
  (∀ v, ∃ r, map_angle st v 0 = inr r
             ∧ PyFloat.leb (PyFloat.of_Z 0) r = true
             ∧ PyFloat.leb r (PyFloat.of_Z 90) = true)
  ∧ (PyFloat.ltb (PyFloat.of_Z 0) (PyFloat.of_Z 100) = true →
     (∃ d, PyFloat.sub (PyFloat.of_Z 100) (PyFloat.of_Z 0) = Fin d) →
     ∀ v1 v2, PyFloat.leb v1 v2 = true →
       ∃ r1 r2, map_angle st v1 0 = inr r1 ∧ map_angle st v2 0 = inr r2
                ∧ PyFloat.leb r1 r2 = true).
Proof.
  apply (map_angle_saturates_and_is_monotone
           (calibrated frame_zeros frame_hundreds) 0 (PyFloat.of_Z 0) (PyFloat.of_Z 100)).
  - vm_compute. reflexivity.
  - float_eq.
  - float_eq.
  - split; discriminate.
  - vm_compute. reflexivity.
Defined.

(** C5 as stated fails: when the frame stored by both triggers carries an
    infinite reading, the bounds are equal and calibration is active, but
    the lower bound equals the sentinel of its side and the value passes
    through instead of becoming 45. *)
Lemma map_angle_degenerate_counterexample :
  ¬ (∀ st i lo hi v,
       is_calibrated st = true →
       calibration_min st !! i = Some lo →
       calibration_max st !! i = Some hi →
       PyFloat.eqb hi lo = true →
       map_angle st v i = inr (PyFloat.of_Z 45)).
Proof.
  intros Hclaim.
  specialize (Hclaim (calibrated frame_infinite frame_infinite) 0%nat PInf PInf
                (PyFloat.of_Z 7)).
  assert (map_angle (calibrated frame_infinite frame_infinite) (PyFloat.of_Z 7) 0
          = inr (PyFloat.of_Z 7)) as Hpass by float_eq.
  rewrite Hclaim in Hpass; [|vm_compute; reflexivity..].
  assert (Qc_of_Z 45 = Qc_of_Z 7) as Hq by (unfold PyFloat.of_Z in Hpass; congruence).
  apply (f_equal this) in Hq. vm_compute in Hq. discriminate.
Qed.

(** C5, amended.  When calibration is active and the two bounds of a
    channel are equal and neither is the sentinel of its side, [map_angle]
    returns 45 for every value, without dividing. *)
Theorem map_angle_degenerate_midpoint st i lo hi v :
  is_calibrated st = true →
  calibration_min st !! i = Some lo →
  calibration_max st !! i = Some hi →
  bounds_set lo hi →
  PyFloat.eqb hi lo = true →
  map_angle st v i = inr (PyFloat.of_Z 45).
Proof.
  intros Hc Hlo Hhi [Hl Hh] He. unfold map_angle, index.
  rewrite Hc, Hlo, Hhi. simpl.
  apply eqb_PInf in Hl. apply eqb_NInf in Hh. by rewrite Hl, Hh, He.
Qed.

Lemma map_angle_degenerate_midpoint_witness :
  map_angle (calibrated frame_zeros frame_zeros) (PyFloat.of_Z 7) 0
  = inr (PyFloat.of_Z 45).
Proof.
  apply (map_angle_degenerate_midpoint
           (calibrated frame_zeros frame_zeros) 0 (PyFloat.of_Z 0) (PyFloat.of_Z 0)).
  - vm_compute. reflexivity.
  - float_eq.
  - float_eq.
  - split; discriminate.
  - vm_compute. reflexivity.
Defined.

(* ===================================================================== *)
(** * Calibration triggers *)
(* ===================================================================== *)

(** C6 as stated fails: on an object whose angle port is open, "set
    maximum" alone sets [is_calibrated]; "set minimum" has not occurred. *)
Lemma is_calibrated_without_minimum_counterexample :
  ¬ (∀ (float_of_str : string → option pyfloat) p evs,
       is_calibrated p.1 = false →
       is_calibrated (run_from float_of_str p evs).1 = true →
       EvSetMin ∈ evs ∧ EvSetMax ∈ evs).
Proof.
  intros Hclaim.
  destruct (Hclaim Decimal.float (connected_init, EmptyString) [EvSetMax])
    as [Hmin _]; [reflexivity..|].
  apply list_elem_of_singleton in Hmin. discriminate.
Qed.

(** C6, amended.  [is_calibrated] becomes true only through a "set
    maximum" trigger that finds the angle port open and that no reset
    follows; a "set minimum" trigger is not required.  [reset_calibration]
    restores both arrays to the sentinels and clears the flag. *)
Theorem calibration_lifecycle
    (float_of_str : string → option pyfloat) (p : visualizer * string) (evs : list event) :
  (is_calibrated p.1 = false →
   is_calibrated (run_from float_of_str p evs).1 = true →
   ∃ pre post,
     evs = pre ++ EvSetMax :: post
     ∧ connected (angle_serial (run_from float_of_str p pre).1) = true
     ∧ EvResetCalibration ∉ post)
  ∧ calibration_min (reset_calibration p.1).1 = replicate 14 PInf
  ∧ calibration_max (reset_calibration p.1).1 = replicate 14 NInf
  ∧ is_calibrated (reset_calibration p.1).1 = false.
Proof.
  split_and!; [apply is_calibrated_origin | reflexivity..].
Qed.

Lemma calibration_lifecycle_witness :
  ∃ pre post,
    [EvSetMin; EvSetMax] = pre ++ EvSetMax :: post
    ∧ connected (angle_serial
        (run_from Decimal.float (connected_init, EmptyString) pre).1) = true
    ∧ EvResetCalibration ∉ post.
Proof.
  apply (proj1 (calibration_lifecycle Decimal.float (connected_init, EmptyString)
                  [EvSetMin; EvSetMax])).
  - reflexivity.
  - reflexivity.
Defined.

(* ===================================================================== *)
(** * The refresh rate *)
(* ===================================================================== *)

(** C8 (the code does not do this).  Selecting a rate stores
    [1000 / fps] in [update_interval], but nothing schedules with it: in
    every execution neither [update], the one method that reads
    [update_interval], nor [update_visualization] is ever pending, and
    when [update_visualization] does re-arm itself the delay is the
    constant 16, whatever [update_interval] holds. *)
Theorem selected_rate_is_not_used :
  (∀ fps, fps ∈ [1; 5; 10; 30; 60] →
     update_interval (update_frequency (Some fps) (run init)) = 1000 / fps)
  ∧ (∀ float_of_str evs,
       scheduled CbUpdate (execute float_of_str evs).1 = []
       ∧ scheduled CbUpdateVisualization (execute float_of_str evs).1 = [])
  ∧ (∀ st,
       timers (update_visualization st)
       = timers st ++ (if thread_running st then [(16, CbUpdateVisualization)] else []))
  ∧ (let st := (execute Decimal.float [EvFpsSelected (Some 1)]).1 in
     update_interval st = 1000 ∧ timers st = [(100, CbReleaseUpdateLock)]).
Proof.
  split_and!.
  - intros fps Hfps. repeat (apply elem_of_cons in Hfps as [-> | Hfps]; [reflexivity|]).
    by apply elem_of_nil in Hfps.
  - intros float_of_str evs.
    pose proof (execute_only_lock_releases float_of_str evs) as Ht.
    unfold only_lock_releases in Ht. unfold scheduled.
    induction Ht as [|[ms cb] ts Hcb _ [IH1 IH2]]; [done|]. simpl in Hcb. subst cb.
    rewrite !filter_cons_False by done. done.
  - intros st. unfold update_visualization, after. simpl.
    destruct (thread_running st); simpl; by rewrite ?app_nil_r.
  - split; reflexivity.
Qed.

(* ===================================================================== *)
(** * The read loop that runs *)
(* ===================================================================== *)

(** C9.  The name [serial_read_thread] is bound to the definition at line
    788.  One pass of its loop writes the angle port, the raw frame and
    the finger angles and puts at most one [True] on the queue: it leaves
    the pressure port alone and enqueues no list.  In every execution the
    queue holds nothing but [True] and [pressure_data] is still
    [[0, 0, 0, 0, 0]]. *)
Theorem pressure_data_stays_initial :
  class_namespace !! "serial_read_thread" = Some 788%nat
  ∧ (∀ float_of_str buffer st,
       ∃ port raw fingers signal,
         serial_read_thread float_of_str buffer st
         = (buffer,
            set_data_queue (data_queue st ++ signal)
              (set_angle_data fingers
                 (set_current_raw_angles raw (set_angle_serial port st))))
         ∧ (signal = [] ∨ signal = [QTrue]))
  ∧ (∀ float_of_str evs,
       pressure_data (execute float_of_str evs).1 = [0; 0; 0; 0; 0]
       ∧ Forall (λ item, item = QTrue) (data_queue (execute float_of_str evs).1)).
Proof.
  split_and!.
  - apply serial_read_thread_binding.
  - intros float_of_str buffer st. rewrite serial_read_thread_is_788.
    unfold serial_read_thread_788.
    destruct (read_angle_frame float_of_str st)
      as (port & raw & fingers & signal & -> & Hs & _).
    by exists port, raw, fingers, signal.
  - intros float_of_str evs.
    destruct (execute_no_pressure float_of_str evs) as [Hq Hp]. done.
Qed.

(* ===================================================================== *)
(** * Connecting *)
(* ===================================================================== *)

(** C10.  The class has no [start_serial_thread], so the attribute lookup
    raises [AttributeError].  From a state with no open port and with at
    least one port selected, [toggle_connection] therefore reports an
    error ([AttributeError] whenever every selected port opens), leaves
    both ports closed and the button on "connect", and does not touch
    [thread_running] or [serial_thread].  In every execution no port is
    open, no thread has been started and [thread_running] is false. *)
Theorem connect_always_fails :
  getattr_method "start_serial_thread" = inl AttributeError
  ∧ (∀ openable angle_port pressure_port st,
       connected (angle_serial st) = false →
       connected (pressure_serial st) = false →
       PyStr.is_empty angle_port && PyStr.is_empty pressure_port = false →
       ∃ st' e,
         toggle_connection openable angle_port pressure_port st = (st', ShowError e)
         ∧ connected (angle_serial st') = false
         ∧ connected (pressure_serial st') = false
         ∧ connect_btn st' = "连接"
         ∧ thread_running st' = thread_running st
         ∧ serial_thread st' = serial_thread st
         ∧ ((PyStr.is_empty angle_port = false → openable angle_port = true) →
            (PyStr.is_empty pressure_port = false → openable pressure_port = true) →
            e = AttributeError))
  ∧ (∀ float_of_str evs,
       let st := (execute float_of_str evs).1 in
       thread_running st = false ∧ serial_thread st = None
       ∧ connected (angle_serial st) = false
       ∧ connected (pressure_serial st) = false).
Proof.
  split_and!.
  - reflexivity.
  - apply toggle_connection_fails.
  - intros float_of_str evs. apply execute_idle.
Qed.

Lemma connect_always_fails_witness :
  ∃ st' e,
    toggle_connection (λ _, true) "COM3" "COM4" init = (st', ShowError e)
    ∧ connected (angle_serial st') = false
    ∧ connected (pressure_serial st') = false
    ∧ connect_btn st' = "连接"
    ∧ thread_running st' = thread_running init
    ∧ serial_thread st' = serial_thread init
    ∧ ((PyStr.is_empty "COM3" = false → true = true) →
       (PyStr.is_empty "COM4" = false → true = true) →
       e = AttributeError).
Proof.
  apply (proj1 (proj2 connect_always_fails) (λ _, true) "COM3"%string "COM4"%string init).
  - reflexivity.
  - reflexivity.
  - reflexivity.
Defined.

(* ===================================================================== *)
(** * Pressure records *)
(* ===================================================================== *)

(** C2 (the code does not do this).  The loop defined at line 369 strips
    what [readline] returns before appending it to its buffer, so the
    buffer never holds the newline that the extraction loop waits for:
    whatever the chunks, no pressure frame is put on the queue.  The two
    chunks of the scenario yield no frame, and neither does the same text
    in one piece, although the extraction loop itself, given the record
    with its newline, yields [[10, 20, 30, 40, 50]]. *)
Theorem pressure_chunks_yield_no_frame :
  pressure_frames
    (deliver_369 Decimal.float 1 [chunk_1; chunk_2] EmptyString pressure_init).2 = []
  ∧ pressure_frames
      (deliver_369 Decimal.float 1 [chunk_1 +:+ chunk_2] EmptyString pressure_init).2 = []
  ∧ (∀ float_of_str passes chunks st,
       pressure_frames (deliver_369 float_of_str passes chunks EmptyString st).2
       = pressure_frames st)
  ∧ pressure_frames
      (extract_lines (String.length (chunk_1 +:+ chunk_2)) (chunk_1 +:+ chunk_2) init).2
    = [[10; 20; 30; 40; 50]].
Proof.
  split_and!.
  - vm_compute. reflexivity.
  - vm_compute. reflexivity.
  - intros float_of_str passes chunks st.
    by apply deliver_369_silent.
  - vm_compute. reflexivity.
Qed.

(* ===================================================================== *)
(** * Further properties: frames and their sizes *)
(* ===================================================================== *)

Lemma read_angle_raw (float_of_str : string → option pyfloat) st raw :
  current_raw_angles (read_angle float_of_str st) = Some raw →
  current_raw_angles st = Some raw ∨ length raw = 14%nat.
Proof.
  unfold read_angle.
  destruct (angle_serial st) as [port|]; [|by left].
  destruct (is_open port && in_waiting port); [|by left].
  destruct (readline (in_buffer port)) as [line rest].
  set (st1 := set_angle_serial _ st).
  destruct (negb (PyStr.is_empty (PyStr.strip line))); [|by left].
  unfold parse_serial_data.
  destruct (parse_angles float_of_str (PyStr.strip line)) as [angles|] eqn:Hp;
    [|by left].
  apply parse_angles_length in Hp.
  destruct (map_angles _ _); simpl; intros [= <-]; by right.
Qed.

Lemma step_frames_sized (float_of_str : string → option pyfloat) ev p :
  frames_sized p.1 → frames_sized (step float_of_str ev p).1.
Proof.
  destruct p as [st buffer]. simpl. intros [[Hmin Hmax] Hraw].
  destruct ev as [openable ap pp| | | |fps|n|pressure data|]; simpl.
  - by destruct (toggle_connection_frame openable ap pp st) as (? & ? & ? & ? & ->).
  - unfold set_min_values. destruct (negb _); [done|]. simpl.
    repeat split; simpl; try done.
    destruct (current_raw_angles st) as [raw|]; [by apply Hraw | reflexivity].
  - unfold set_max_values. destruct (negb _); [done|]. simpl.
    repeat split; simpl; try done.
    destruct (current_raw_angles st) as [raw|]; [by apply Hraw | reflexivity].
  - done.
  - by destruct (update_frequency_frame fps st) as (? & ? & ? & ? & -> & _).
  - destruct (timers st !! n) as [[ms cb]|]; [|done]. simpl.
    destruct cb; simpl; try done.
    + unfold update. simpl. by destruct (updating st).
    + unfold update_visualization. simpl. by destruct (thread_running st).
  - by destruct pressure.
  - destruct (serial_thread st); [|done]. destruct (thread_running st); [|done].
    rewrite serial_read_thread_is_788. unfold serial_read_thread_788. cbn [fst snd].
    split.
    + by destruct (read_angle_frame float_of_str st) as (? & ? & ? & ? & -> & _).
    + intros raw [Hold|Hnew]%read_angle_raw; [by apply Hraw | done].
Qed.

(** X1.  Whatever happens, the two calibration arrays keep their 14
    entries and the stored raw frame, once there is one, has 14: "set
    minimum" and "set maximum" only ever store a frame that
    [parse_serial_data] accepted, or the 14 sentinels. *)
Theorem frames_stay_sized
    (float_of_str : string → option pyfloat) (p : visualizer * string) (evs : list event) :
  frames_sized p.1 → frames_sized (run_from float_of_str p evs).1.
Proof.
  intros Hp. apply (run_from_invariant float_of_str (λ q, frames_sized q.1)); [|done].
  intros ev q. apply step_frames_sized.
Qed.

Lemma frames_stay_sized_witness :
  frames_sized
    (run_from Decimal.float (streaming frame_zeros, EmptyString)
       [EvSetMin; EvSetMax; EvResetCalibration]).1.
Proof.
  apply (frames_stay_sized Decimal.float (streaming frame_zeros, EmptyString)).
  split; [split; reflexivity|]. simpl. discriminate.
Defined.

Lemma parse_serial_data_cases
    (float_of_str : string → option pyfloat) (st : visualizer) (data : string) :
  calibration_sized st →
  (parse_angles float_of_str data = None
   ∧ parse_serial_data float_of_str st data = (st, None))
  ∨ (∃ angles mapped,
       parse_angles float_of_str data = Some angles
       ∧ map_angles st angles = inr mapped
       ∧ length mapped = 14%nat
       ∧ parse_serial_data float_of_str st data
         = (assign_fingers mapped (set_current_raw_angles (Some angles) st), Some true)).
Proof.
  intros Hs. destruct (parse_angles float_of_str data) as [angles|] eqn:Hp.
  - right. destruct (parse_serial_data_accept _ st data angles Hp Hs) as (mapped & Hm & ->).
    exists angles, mapped. split_and!; try done.
    destruct (map_angles_inr _ _ _ Hm) as [-> _]. by eapply parse_angles_length.
  - left. split; [done|]. by apply parse_serial_data_reject.
Qed.

(** X2.  With calibration arrays of 14 entries a line is never half
    applied: [parse_serial_data] either returns [None] and leaves the
    object as it was, or returns [True] with the raw frame and all five
    fingers assigned.  The broad [except Exception] handler, which would
    return [None] after the raw frame has been stored, is never
    reached. *)
Theorem parse_serial_data_atomic
    (float_of_str : string → option pyfloat) (st : visualizer) (data : string) :
  calibration_sized st →
  (parse_angles float_of_str data = None
   ∧ parse_serial_data float_of_str st data = (st, None))
  ∨ (∃ angles mapped,
       parse_angles float_of_str data = Some angles
       ∧ map_angles st angles = inr mapped
       ∧ length mapped = 14%nat
       ∧ parse_serial_data float_of_str st data
         = (assign_fingers mapped (set_current_raw_angles (Some angles) st), Some true)).
Proof. apply parse_serial_data_cases. Qed.

Lemma parse_serial_data_atomic_witness :
  (parse_angles Decimal.float frame_bad_value = None
   ∧ parse_serial_data Decimal.float init frame_bad_value = (init, None))
  ∨ (∃ angles mapped,
       parse_angles Decimal.float frame_bad_value = Some angles
       ∧ map_angles init angles = inr mapped
       ∧ length mapped = 14%nat
       ∧ parse_serial_data Decimal.float init frame_bad_value
         = (assign_fingers mapped (set_current_raw_angles (Some angles) init), Some true)).
Proof.
  apply (parse_serial_data_atomic Decimal.float init frame_bad_value).
  split; reflexivity.
Defined.

(** X3.  While calibration is inactive [map_angle] returns its argument
    for every index, in range or not.  Once it is active the index is
    used: inside both arrays the call returns a value, and at or beyond
    the end of either array it raises [IndexError]; it never raises
    [ZeroDivisionError]. *)
Theorem map_angle_index_error (st : visualizer) (value : pyfloat) (idx : nat) :
  (is_calibrated st = false → map_angle st value idx = inr value)
  ∧ (is_calibrated st = true →
     ((idx < length (calibration_min st))%nat ∧ (idx < length (calibration_max st))%nat →
      ∃ r, map_angle st value idx = inr r)
     ∧ ((length (calibration_min st) <= idx)%nat ∨ (length (calibration_max st) <= idx)%nat →
        map_angle st value idx = inl IndexError)).
Proof.
  split; [apply map_angle_inactive|]. intros Hc. split.
  - intros [Hlo Hhi]. by apply map_angle_total.
  - unfold map_angle, index. rewrite Hc. simpl.
    destruct (calibration_min st !! idx) as [lo|] eqn:Hlo; simpl.
    + intros [Hge|Hge]; [apply lookup_lt_Some in Hlo; lia|].
      by rewrite (lookup_ge_None_2 _ _ Hge).
    + done.
Qed.

Lemma map_angle_index_error_witness :
  (∃ r, map_angle max_only (PyFloat.of_Z 1) 0 = inr r)
  ∧ map_angle max_only (PyFloat.of_Z 1) 14 = inl IndexError.
Proof.
  split.
  - apply (proj1 (proj2 (map_angle_index_error max_only (PyFloat.of_Z 1) 0) eq_refl)).
    split; vm_compute; lia.
  - apply (proj2 (proj2 (map_angle_index_error max_only (PyFloat.of_Z 1) 14) eq_refl)).
    left. vm_compute. lia.
Defined.

(* ===================================================================== *)
(** * Further properties: the program as it runs *)
(* ===================================================================== *)

Lemma toggle_connection_button openable angle_port pressure_port st :
  connect_btn st = "连接" →
  connect_btn (toggle_connection openable angle_port pressure_port st).1 = "连接".
Proof.
  intros Hbtn. unfold toggle_connection.
  destruct (connected (angle_serial st) || connected (pressure_serial st)); [done|].
  destruct (_ && _); [done|].
  destruct (connect_body_frame openable angle_port pressure_port st)
    as (angle & pressure & btn & e & ->).
  by destruct (connect_failed_frame
    (set_connect_btn btn (set_pressure_serial pressure (set_angle_serial angle
       (set_thread_running (thread_running st) st))))) as (? & ? & ->).
Qed.

Lemma step_untouched (float_of_str : string → option pyfloat) ev p :
  idle p.1 ∧ untouched p.1 → untouched (step float_of_str ev p).1.
Proof.
  destruct p as [st buffer]. simpl.
  intros [(Htr & Hth & Ha & Hp) (Hc & Hmin & Hmax & Hraw & Hpose & Hbtn)].
  destruct ev as [openable ap pp| | | |fps|n|pressure data|]; simpl.
  - pose proof (toggle_connection_button openable ap pp st Hbtn) as Hbtn'.
    destruct (toggle_connection_frame openable ap pp st) as (? & ? & ? & ? & Heq).
    rewrite Heq in Hbtn' |- *. by repeat split.
  - unfold set_min_values. by rewrite Ha.
  - unfold set_max_values. by rewrite Ha.
  - by repeat split.
  - by destruct (update_frequency_frame fps st) as (? & ? & ? & ? & -> & _).
  - destruct (timers st !! n) as [[ms cb]|]; [|done]. simpl.
    destruct cb; simpl; try done.
    + unfold update. simpl. by destruct (updating st).
    + unfold update_visualization. simpl. by rewrite Htr.
  - by destruct pressure.
  - by rewrite Hth.
Qed.

(** X4.  In the program as it runs nothing ever reaches the pose: since
    no port can be opened and no read thread started, after any sequence
    of events calibration is inactive with both arrays at their
    sentinels, no raw frame has been stored, [angle_data] is the initial
    pose and the connect button still reads "connect". *)
Theorem pose_never_changes (float_of_str : string → option pyfloat) (evs : list event) :
  let st := (execute float_of_str evs).1 in
  is_calibrated st = false
  ∧ calibration_min st = replicate 14 PInf
  ∧ calibration_max st = replicate 14 NInf
  ∧ current_raw_angles st = None
  ∧ angle_data st = angle_data init
  ∧ connect_btn st = "连接".
Proof.
  apply (run_from_invariant float_of_str (λ p, idle p.1 ∧ untouched p.1)).
  - intros ev q H. split; [apply step_idle, H | by apply step_untouched].
  - split; by repeat split.
Qed.

(* ===================================================================== *)
(** * Further properties: the refresh rate selector *)
(* ===================================================================== *)

(** X5.  A selection takes the lock, and while the lock is held a further
    selection changes nothing at all, not even the timers; once
    [release_update_lock] has run, the next selection is taken again.  So
    of two selections made within the 100 ms window only the first
    counts. *)
Theorem update_frequency_lock (fps1 fps2 : option Z) (st : visualizer) :
  update_locked st ≠ Some true →
  update_locked (update_frequency fps1 st) = Some true
  ∧ update_frequency fps2 (update_frequency fps1 st) = update_frequency fps1 st
  ∧ (∀ fps, 0 < fps →
       update_interval
         (update_frequency (Some fps) (release_update_lock (update_frequency fps1 st)))
       = 1000 / fps).
Proof.
  intros Hfree.
  assert (update_locked (update_frequency fps1 st) = Some true) as Hlocked.
  { unfold update_frequency.
    destruct (update_locked st) as [[]|]; [done|..];
      destruct fps1 as [fps1|]; try destruct (0 <? fps1); reflexivity. }
  split_and!; [done| |].
  - unfold update_frequency at 1. by rewrite Hlocked.
  - intros fps Hpos. unfold update_frequency at 1. simpl.
    apply Z.ltb_lt in Hpos. by rewrite Hpos.
Qed.

Lemma update_frequency_lock_witness :
  update_locked (update_frequency (Some 30) init) = Some true
  ∧ update_frequency (Some 5) (update_frequency (Some 30) init)
    = update_frequency (Some 30) init
  ∧ (∀ fps, 0 < fps →
       update_interval
         (update_frequency (Some fps) (release_update_lock (update_frequency (Some 30) init)))
       = 1000 / fps).
Proof.
  apply (update_frequency_lock (Some 30) (Some 5) init). discriminate.
Defined.

(** X6.  What an accepted selection stores.  A positive rate stores the
    truncated quotient [1000 / fps], which is 0 exactly for rates above
    1000; a rate that is zero or negative leaves the interval alone; text
    that is not a number leaves the interval alone and puts "60" back in
    the box.  In all three cases exactly one lock release is scheduled,
    100 ms ahead. *)
Theorem update_frequency_cases (fps : option Z) (st : visualizer) :
  update_locked st ≠ Some true →
  let st' := update_frequency fps st in
  timers st' = timers st ++ [(100, CbReleaseUpdateLock)]
  ∧ match fps with
    | Some n =>
        fps_var st' = fps_var st
        ∧ (0 < n → update_interval st' = 1000 / n
                   ∧ (update_interval st' = 0 ↔ 1000 < n))
        ∧ (n <= 0 → update_interval st' = update_interval st)
    | None => fps_var st' = "60" ∧ update_interval st' = update_interval st
    end.
Proof.
  intros Hfree. unfold update_frequency.
  destruct (update_locked st) as [[]|]; [done|..]; destruct fps as [n|]; simpl;
    try (split; [reflexivity|split; reflexivity]).
  all: destruct (0 <? n) eqn:Hn; simpl;
    [apply Z.ltb_lt in Hn | apply Z.ltb_ge in Hn];
    (split; [reflexivity|]); (split; [reflexivity|]); split; try lia.
  all: intros _; split; [reflexivity|]; split; intros H.
  all: try (apply Z.div_small_iff in H; lia).
  all: apply Z.div_small; lia.
Qed.

Lemma update_frequency_cases_witness :
  let st' := update_frequency (Some 2000) init in
  timers st' = timers init ++ [(100, CbReleaseUpdateLock)]
  ∧ fps_var st' = fps_var init
  ∧ (0 < 2000 → update_interval st' = 1000 / 2000
                ∧ (update_interval st' = 0 ↔ 1000 < 2000))
  ∧ (2000 <= 0 → update_interval st' = update_interval init).
Proof.
  apply (update_frequency_cases (Some 2000) init). discriminate.
Defined.

(* ===================================================================== *)
(** * Further properties: draining the queue *)
(* ===================================================================== *)

Lemma drain_last queue pressure :
  drain queue pressure = default pressure (list.last (omap pressure_list queue)).
Proof.
  revert pressure. induction queue as [|item queue IH]; intros pressure; [done|].
  destruct item as [|data]; [apply IH|].
  cbn [drain omap list_omap pressure_list]. rewrite IH.
  destruct (length data =? 5)%nat; [|done].
  rewrite last_cons. by destruct (list.last _).
Qed.

(** X7.  [update_visualization] empties the queue and keeps, of all the
    items that were on it, the last list of exactly five values as the
    new [pressure_data]; [True] flags and lists of any other length are
    skipped, and when no such list was queued [pressure_data] is
    unchanged.  A pressure vector of five entries therefore stays one of
    five entries, whatever is on the queue. *)
Theorem update_visualization_keeps_last_frame (st : visualizer) :
  let st' := update_visualization st in
  data_queue st' = []
  ∧ pressure_data st'
    = default (pressure_data st) (list.last (omap pressure_list (data_queue st)))
  ∧ (length (pressure_data st) = 5%nat → length (pressure_data st') = 5%nat).
Proof.
  assert (pressure_data (update_visualization st)
          = drain (data_queue st) (pressure_data st)) as Hp.
  { unfold update_visualization. simpl. by destruct (thread_running st). }
  split_and!.
  - unfold update_visualization. simpl. by destruct (thread_running st).
  - rewrite Hp. apply drain_last.
  - intros Hlen. rewrite Hp, drain_last.
    destruct (list.last _) as [d|] eqn:Hl; [|done]. simpl.
    apply last_Some_elem_of, list_elem_of_omap in Hl as (item & _ & Hitem).
    destruct item as [|data]; [done|]. simpl in Hitem.
    destruct (length data =? 5)%nat eqn:Hd; [|done].
    apply Nat.eqb_eq in Hd. congruence.
Qed.

Lemma update_visualization_keeps_last_frame_witness :
  length (pressure_data
            (update_visualization
               (put (QPressure [1; 2; 3]) (put (QPressure [5; 6; 7; 8; 9]) init))))
  = 5%nat.
Proof.
  apply (proj2 (proj2 (update_visualization_keeps_last_frame
            (put (QPressure [1; 2; 3]) (put (QPressure [5; 6; 7; 8; 9]) init))))).
  reflexivity.
Defined.

(* ===================================================================== *)
(** * Further properties: the port selectors *)
(* ===================================================================== *)

Lemma str_in_elem_of x l : str_in x l = true ↔ x ∈ l.
Proof.
  unfold str_in. rewrite existsb_exists. split.
  - intros (y & Hy%list_elem_of_In & ->%String.eqb_eq). done.
  - intros Hx. exists x. split; [by apply list_elem_of_In | apply String.eqb_refl].
Qed.

Lemma reselect_elem_of var ports : ports ≠ [] → reselect var ports ∈ ports.
Proof.
  destruct ports as [|first rest]; [done|]. intros _. unfold reselect.
  destruct (str_in var (first :: rest)) eqn:Hin; simpl.
  - by apply str_in_elem_of.
  - apply list_elem_of_here.
Qed.

Lemma reselect_kept var ports : var ∈ ports → reselect var ports = var.
Proof.
  intros Hin. destruct ports as [|first rest]; [done|]. unfold reselect.
  apply str_in_elem_of in Hin. by rewrite Hin.
Qed.

(** X8.  After [refresh_ports] with at least one port present, each of
    the two selections is one of the listed ports: a selection that is
    still listed is kept, one that is not (the empty initial selection
    included) becomes the first port, and the button and both comboboxes
    are enabled.  With no port present the selections are left as they
    are and the three widgets are disabled.  Refreshing again with the
    same list changes nothing. *)
Theorem refresh_ports_selection (comports : list string) (panel : port_panel) :
  let panel' := refresh_ports comports panel in
  (comports ≠ [] →
     angle_port_var panel' ∈ comports
     ∧ pressure_port_var panel' ∈ comports
     ∧ (angle_port_var panel ∈ comports → angle_port_var panel' = angle_port_var panel)
     ∧ (angle_port_var panel ∉ comports → Some (angle_port_var panel') = head comports)
     ∧ (pressure_port_var panel ∈ comports →
        pressure_port_var panel' = pressure_port_var panel)
     ∧ (pressure_port_var panel ∉ comports →
        Some (pressure_port_var panel') = head comports)
     ∧ connect_btn_enabled panel' = true
     ∧ angle_port_combo_enabled panel' = true
     ∧ pressure_port_combo_enabled panel' = true)
  ∧ (comports = [] →
     angle_port_var panel' = angle_port_var panel
     ∧ pressure_port_var panel' = pressure_port_var panel
     ∧ connect_btn_enabled panel' = false
     ∧ angle_port_combo_enabled panel' = false
     ∧ pressure_port_combo_enabled panel' = false)
  ∧ refresh_ports comports panel' = panel'.
Proof.
  assert (∀ var, var ∉ comports → comports ≠ [] →
                 Some (reselect var comports) = head comports) as Hfirst.
  { intros var Hout Hne. destruct comports as [|first rest]; [done|].
    unfold reselect. destruct (str_in var (first :: rest)) eqn:Hin; [|done].
    by apply str_in_elem_of in Hin. }
  split_and!.
  - intros Hne. simpl. split_and!;
      auto using reselect_elem_of, reselect_kept;
      by rewrite bool_decide_eq_false_2.
  - intros ->. done.
  - unfold refresh_ports. simpl. f_equal.
    + destruct comports as [|first rest]; [done|].
      apply reselect_kept, reselect_elem_of. done.
    + destruct comports as [|first rest]; [done|].
      apply reselect_kept, reselect_elem_of. done.
Qed.

Lemma refresh_ports_selection_witness :
  let panel' := refresh_ports ["COM3"; "COM7"]%string fresh_panel in
  angle_port_var panel' ∈ ["COM3"; "COM7"]%string
  ∧ pressure_port_var panel' ∈ ["COM3"; "COM7"]%string
  ∧ (angle_port_var fresh_panel ∈ ["COM3"; "COM7"]%string →
     angle_port_var panel' = angle_port_var fresh_panel)
  ∧ (angle_port_var fresh_panel ∉ ["COM3"; "COM7"]%string →
     Some (angle_port_var panel') = head ["COM3"; "COM7"]%string)
  ∧ (pressure_port_var fresh_panel ∈ ["COM3"; "COM7"]%string →
     pressure_port_var panel' = pressure_port_var fresh_panel)
  ∧ (pressure_port_var fresh_panel ∉ ["COM3"; "COM7"]%string →
     Some (pressure_port_var panel') = head ["COM3"; "COM7"]%string)
  ∧ connect_btn_enabled panel' = true
  ∧ angle_port_combo_enabled panel' = true
  ∧ pressure_port_combo_enabled panel' = true.
Proof.
  apply (proj1 (refresh_ports_selection ["COM3"; "COM7"]%string fresh_panel)).
  discriminate.
Defined.

(* ===================================================================== *)
(** * Further properties: disconnecting and calibrating early *)
(* ===================================================================== *)

(** X9.  When a port is open, [toggle_connection] is the disconnect: it
    shows no dialog, clears [thread_running], closes whichever ports are
    open, and sets the button to "connect".  The port selections and
    what the system would allow to be opened play no part, and the
    queue, the pose and the calibration are not touched. *)
Theorem toggle_connection_disconnects
    (openable : string → bool) (angle_port pressure_port : string) (st : visualizer) :
  connected (angle_serial st) || connected (pressure_serial st) = true →
  let st' := (toggle_connection openable angle_port pressure_port st).1 in
  (toggle_connection openable angle_port pressure_port st).2 = NoDialog
  ∧ thread_running st' = false
  ∧ connected (angle_serial st') = false
  ∧ connected (pressure_serial st') = false
  ∧ connect_btn st' = "连接"
  ∧ data_queue st' = data_queue st
  ∧ angle_data st' = angle_data st
  ∧ pressure_data st' = pressure_data st
  ∧ is_calibrated st' = is_calibrated st.
Proof.
  intros Hopen. unfold toggle_connection, stop_serial_thread. rewrite Hopen. simpl.
  destruct (connected (angle_serial st)) eqn:Ha;
    destruct (connected (pressure_serial st)) eqn:Hp; simpl;
    rewrite ?Ha, ?Hp; simpl; rewrite ?connected_close, ?Ha, ?Hp; done.
Qed.

Lemma toggle_connection_disconnects_witness :
  let st' := (toggle_connection (λ _, false) "COM3" EmptyString both_open).1 in
  (toggle_connection (λ _, false) "COM3" EmptyString both_open).2 = NoDialog
  ∧ thread_running st' = false
  ∧ connected (angle_serial st') = false
  ∧ connected (pressure_serial st') = false
  ∧ connect_btn st' = "连接"
  ∧ data_queue st' = data_queue both_open
  ∧ angle_data st' = angle_data both_open
  ∧ pressure_data st' = pressure_data both_open
  ∧ is_calibrated st' = is_calibrated both_open.
Proof.
  apply (toggle_connection_disconnects (λ _, false) "COM3" EmptyString both_open).
  reflexivity.
Defined.

(** X10.  Pressing "set minimum" and "set maximum" before any line has
    been accepted stores the sentinels themselves: calibration is then
    flagged active, yet every channel still passes its value through
    unchanged. *)
Theorem calibration_before_first_frame (st : visualizer) (value : pyfloat) (idx : nat) :
  connected (angle_serial st) = true →
  current_raw_angles st = None →
  (idx < 14)%nat →
  let st' := (set_max_values (set_min_values st).1).1 in
  is_calibrated st' = true
  ∧ calibration_min st' = replicate 14 PInf
  ∧ calibration_max st' = replicate 14 NInf
  ∧ map_angle st' value idx = inr value.
Proof.
  intros Hopen Hraw Hidx. unfold set_max_values, set_min_values.
  rewrite Hopen. simpl. rewrite Hopen, Hraw. simpl.
  split_and!; try reflexivity.
  apply (map_angle_sentinel _ value idx PInf NInf).
  - exact (lookup_replicate_2 14 PInf idx Hidx).
  - exact (lookup_replicate_2 14 NInf idx Hidx).
  - by left.
Qed.

Lemma calibration_before_first_frame_witness :
  let st' := (set_max_values (set_min_values connected_init).1).1 in
  is_calibrated st' = true
  ∧ calibration_min st' = replicate 14 PInf
  ∧ calibration_max st' = replicate 14 NInf
  ∧ map_angle st' (PyFloat.of_Z 33) 13 = inr (PyFloat.of_Z 33).
Proof.
  apply (calibration_before_first_frame connected_init (PyFloat.of_Z 33) 13).
  - reflexivity.
  - reflexivity.
  - lia.
Defined.

(** X11.  After [reset_calibration] the map is the identity on every
    channel, whatever had been stored, and the next accepted line puts
    its own values on the fingers: index finger from fields 1-3, thumb
    from fields 13-14. *)
Theorem reset_restores_pass_through
    (float_of_str : string → option pyfloat) (st : visualizer) (data : string)
    (angles : list pyfloat) :
  parse_angles float_of_str data = Some angles →
  let st0 := (reset_calibration st).1 in
  let fingers := angle_data (parse_serial_data float_of_str st0 data).1 in
  (∀ value idx, map_angle st0 value idx = inr value)
  ∧ fingers !! "finger_1" = Some (slice 0 3 angles)
  ∧ fingers !! "finger_2" = Some (slice 3 6 angles)
  ∧ fingers !! "finger_3" = Some (slice 6 9 angles)
  ∧ fingers !! "finger_4" = Some (slice 9 12 angles)
  ∧ fingers !! "finger_0" = Some (slice 12 14 angles).
Proof.
  intros Hp. cbv zeta.
  assert (parse_serial_data float_of_str (reset_calibration st).1 data
          = (assign_fingers angles
               (set_current_raw_angles (Some angles) (reset_calibration st).1), Some true))
    as ->.
  { destruct (parse_serial_data_accept float_of_str (reset_calibration st).1 data angles Hp)
      as (mapped & Hm & ->); [split; reflexivity|].
    rewrite map_angles_inactive in Hm by reflexivity. by simplify_eq. }
  split; [intros value idx; by apply map_angle_inactive|].
  cbn [fst]. rewrite assign_fingers_data.
  split_and!; rewrite ?lookup_insert_ne by done; by rewrite lookup_insert_eq.
Qed.

Lemma reset_restores_pass_through_witness :
  let st0 := (reset_calibration (calibrated frame_zeros frame_hundreds)).1 in
  let fingers := angle_data (parse_serial_data Decimal.float st0 frame_zeros).1 in
  (∀ value idx, map_angle st0 value idx = inr value)
  ∧ fingers !! "finger_1" = Some (slice 0 3 (replicate 14 (PyFloat.of_Z 0)))
  ∧ fingers !! "finger_2" = Some (slice 3 6 (replicate 14 (PyFloat.of_Z 0)))
  ∧ fingers !! "finger_3" = Some (slice 6 9 (replicate 14 (PyFloat.of_Z 0)))
  ∧ fingers !! "finger_4" = Some (slice 9 12 (replicate 14 (PyFloat.of_Z 0)))
  ∧ fingers !! "finger_0" = Some (slice 12 14 (replicate 14 (PyFloat.of_Z 0))).
Proof.
  apply (reset_restores_pass_through Decimal.float
           (calibrated frame_zeros frame_hundreds) frame_zeros).
  apply parse_angles_Some. split; [vm_compute; reflexivity|].
  split_line. simpl replicate.
  repeat (constructor; [eexists; split; [vm_compute; reflexivity|];
                        vm_compute; do 2 f_equal; apply Qc_is_canon; reflexivity|]).
  constructor.
Defined.

(* ===================================================================== *)
(** * Further properties: the two read loops *)
(* ===================================================================== *)

Lemma read_pressure_frame buffer st :
  PyStr.contains nl buffer = false →
  ∃ port,
    (read_pressure buffer st).2 = set_pressure_serial port st
    ∧ connected port = connected (pressure_serial st)
    ∧ (connected (pressure_serial st) = false → read_pressure buffer st = (buffer, st)).
Proof.
  intros Hb. unfold read_pressure.
  destruct (pressure_serial st) as [port|] eqn:Hport.
  2: { exists None. split_and!; [|done|done]. simpl. destruct st; simpl in *; by subst. }
  destruct (is_open port) eqn:Hopen; simpl.
  2: { exists (Some port). split_and!; [|by simpl|done].
       simpl. destruct st; simpl in *; by subst. }
  destruct (in_waiting port).
  2: { exists (Some port). split_and!; [|by simpl|simpl; congruence].
       simpl. destruct st; simpl in *; by subst. }
  pose proof (readline_newline_only_last (in_buffer port)) as Hline.
  destruct (readline (in_buffer port)) as [line rest]. simpl in Hline.
  exists (Some {| is_open := true; in_buffer := rest |}).
  split_and!; [|by simpl|simpl; congruence].
  destruct (negb _); [|done].
  rewrite extract_lines_none; [done|].
  rewrite contains_app, Hb. simpl.
  by apply strip_no_newline, no_newline_only_last, strip_no_newline.
Qed.

(** X12.  The two definitions of [serial_read_thread] differ in nothing
    that reaches the pose: starting with a buffer free of newlines (it
    starts empty), a pass of the loop defined at line 369 leaves the
    object exactly as a pass of the loop defined at line 788 does, except
    that it may have taken a line off the pressure port.  With the
    pressure port closed or absent the two passes agree entirely and the
    buffer is unchanged. *)
Theorem read_loops_agree
    (float_of_str : string → option pyfloat) (buffer : string) (st : visualizer) :
  PyStr.contains nl buffer = false →
  (∃ port,
     (serial_read_thread_369 float_of_str buffer st).2
     = set_pressure_serial port (serial_read_thread_788 float_of_str st)
     ∧ connected port = connected (pressure_serial st))
  ∧ PyStr.contains nl (serial_read_thread_369 float_of_str buffer st).1 = false
  ∧ (connected (pressure_serial st) = false →
     serial_read_thread_369 float_of_str buffer st
     = (buffer, serial_read_thread_788 float_of_str st)).
Proof.
  intros Hb. unfold serial_read_thread_369, serial_read_thread_788.
  assert (pressure_serial (read_angle float_of_str st) = pressure_serial st) as Hsame
    by by destruct (read_angle_frame float_of_str st) as (? & ? & ? & ? & -> & _).
  destruct (read_pressure_frame buffer (read_angle float_of_str st) Hb)
    as (port & Heq & Hc & Hclosed).
  rewrite Hsame in Hc, Hclosed. split_and!.
  - by exists port.
  - by apply read_pressure_silent.
  - done.
Qed.

Lemma read_loops_agree_witness :
  (∃ port,
     (serial_read_thread_369 Decimal.float EmptyString (streaming frame_zeros)).2
     = set_pressure_serial port (serial_read_thread_788 Decimal.float (streaming frame_zeros))
     ∧ connected port = connected (pressure_serial (streaming frame_zeros)))
  ∧ PyStr.contains nl
      (serial_read_thread_369 Decimal.float EmptyString (streaming frame_zeros)).1 = false
  ∧ (connected (pressure_serial (streaming frame_zeros)) = false →
     serial_read_thread_369 Decimal.float EmptyString (streaming frame_zeros)
     = (EmptyString, serial_read_thread_788 Decimal.float (streaming frame_zeros))).
Proof.
  apply (read_loops_agree Decimal.float EmptyString (streaming frame_zeros)).
  reflexivity.
Defined.

(** X13.  A pass of the angle branch over an open port whose waiting
    line is ASCII (so that decoding it cannot fail) takes exactly one
    line off the port, which stays open, and signals a new frame exactly
    when that line parses; a malformed or blank line is dropped without a
    signal and without closing anything.  Calibration and the pressure
    side are not touched. *)
Theorem read_angle_consumes_one_line
    (float_of_str : string → option pyfloat) (st : visualizer) (port : Serial) :
  angle_serial st = Some port →
  is_open port = true →
  in_buffer port ≠ EmptyString →
  is_ascii (readline (in_buffer port)).1 = true →
  calibration_sized st →
  let st' := read_angle float_of_str st in
  let line := (readline (in_buffer port)).1 in
  angle_serial st' = Some {| is_open := true; in_buffer := (readline (in_buffer port)).2 |}
  ∧ data_queue st'
    = data_queue st
      ++ match parse_angles float_of_str (PyStr.strip line) with
         | Some _ => [QTrue]
         | None => []
         end
  ∧ (parse_angles float_of_str (PyStr.strip line) = None →
     angle_data st' = angle_data st ∧ current_raw_angles st' = current_raw_angles st)
  ∧ calibration_min st' = calibration_min st
  ∧ calibration_max st' = calibration_max st
  ∧ is_calibrated st' = is_calibrated st
  ∧ pressure_serial st' = pressure_serial st
  ∧ pressure_data st' = pressure_data st.
Proof.
  intros Hport Hopen Hrx _ Hs. cbv zeta. unfold read_angle. rewrite Hport, Hopen.
  assert (in_waiting port = true) as -> by (unfold in_waiting; by destruct (in_buffer port)).
  simpl. destruct (readline (in_buffer port)) as [line rest]. simpl.
  set (st1 := set_angle_serial _ st).
  destruct (PyStr.is_empty (PyStr.strip line)) eqn:Hblank; simpl.
  - assert (parse_angles float_of_str (PyStr.strip line) = None) as ->.
    { destruct (PyStr.strip line); [reflexivity|discriminate]. }
    rewrite app_nil_r. by split_and!.
  - destruct (parse_serial_data_cases float_of_str st1 (PyStr.strip line) Hs)
      as [[-> ->]|(angles & mapped & -> & _ & _ & ->)].
    + rewrite app_nil_r. by split_and!.
    + by split_and!.
Qed.

Lemma read_angle_consumes_one_line_witness :
  let st := streaming (frame_13_fields +:+ String nl frame_zeros) in
  let port := {| is_open := true; in_buffer := frame_13_fields +:+ String nl frame_zeros |} in
  let st' := read_angle Decimal.float st in
  let line := (readline (in_buffer port)).1 in
  angle_serial st' = Some {| is_open := true; in_buffer := (readline (in_buffer port)).2 |}
  ∧ data_queue st'
    = data_queue st
      ++ match parse_angles Decimal.float (PyStr.strip line) with
         | Some _ => [QTrue]
         | None => []
         end
  ∧ (parse_angles Decimal.float (PyStr.strip line) = None →
     angle_data st' = angle_data st ∧ current_raw_angles st' = current_raw_angles st)
  ∧ calibration_min st' = calibration_min st
  ∧ calibration_max st' = calibration_max st
  ∧ is_calibrated st' = is_calibrated st
  ∧ pressure_serial st' = pressure_serial st
  ∧ pressure_data st' = pressure_data st.
Proof.
  apply (read_angle_consumes_one_line Decimal.float
           (streaming (frame_13_fields +:+ String nl frame_zeros))
           {| is_open := true; in_buffer := frame_13_fields +:+ String nl frame_zeros |}).
  - reflexivity.
  - reflexivity.
  - discriminate.
  - vm_compute. reflexivity.
  - split; reflexivity.
Defined.

(* ===================================================================== *)
(** * Further properties: the shape of the pose *)
(* ===================================================================== *)

Lemma pose_shaped_ext st st' :
  angle_data st' = angle_data st → pose_shaped st → pose_shaped st'.
Proof. unfold pose_shaped. by intros ->. Qed.

Lemma assign_fingers_shaped mapped st :
  length mapped = 14%nat → pose_shaped (assign_fingers mapped st).
Proof.
  intros Hlen.
  destruct (slices_14 mapped Hlen)
    as (m0 & m1 & m2 & m3 & m4 & m5 & m6 & m7 & m8 & m9 & m10 & m11 & m12 & m13 & ->).
  unfold pose_shaped, finger_joints. rewrite assign_fingers_data.
  repeat constructor; eexists; cbn [fst snd];
    (split; [rewrite ?lookup_insert_ne by done; apply lookup_insert_eq | reflexivity]).
Qed.

Lemma parse_serial_data_shaped (float_of_str : string → option pyfloat) st data :
  pose_shaped st → pose_shaped (parse_serial_data float_of_str st data).1.
Proof.
  intros Hst. unfold parse_serial_data.
  destruct (parse_angles float_of_str data) as [angles|] eqn:Hp; [|done].
  destruct (map_angles _ angles) as [e|mapped] eqn:Hm; simpl.
  - by apply (pose_shaped_ext st).
  - apply assign_fingers_shaped.
    destruct (map_angles_inr _ _ _ Hm) as [-> _]. by eapply parse_angles_length.
Qed.

Lemma read_angle_shaped (float_of_str : string → option pyfloat) st :
  pose_shaped st → pose_shaped (read_angle float_of_str st).
Proof.
  intros Hst. unfold read_angle.
  destruct (angle_serial st) as [port|]; [|done].
  destruct (is_open port && in_waiting port); [|done].
  destruct (readline (in_buffer port)) as [line rest].
  set (st1 := set_angle_serial _ st).
  assert (pose_shaped st1) as Hst1 by by apply (pose_shaped_ext st).
  destruct (negb (PyStr.is_empty (PyStr.strip line))); [|done].
  pose proof (parse_serial_data_shaped float_of_str st1 (PyStr.strip line) Hst1) as Hparsed.
  destruct (parse_serial_data float_of_str st1 (PyStr.strip line)) as [st2 [[]|]];
    simpl in Hparsed; done.
Qed.

Lemma step_pose_shaped (float_of_str : string → option pyfloat) ev p :
  pose_shaped p.1 → pose_shaped (step float_of_str ev p).1.
Proof.
  destruct p as [st buffer]. simpl. intros Hst.
  destruct ev as [openable ap pp| | | |fps|n|pressure data|]; simpl.
  - destruct (toggle_connection_frame openable ap pp st) as (? & ? & ? & ? & ->).
    by apply (pose_shaped_ext st).
  - unfold set_min_values. destruct (negb _); [done|]. by apply (pose_shaped_ext st).
  - unfold set_max_values. destruct (negb _); [done|]. by apply (pose_shaped_ext st).
  - by apply (pose_shaped_ext st).
  - destruct (update_frequency_frame fps st) as (? & ? & ? & ? & -> & _).
    by apply (pose_shaped_ext st).
  - destruct (timers st !! n) as [[ms cb]|]; [|done]. simpl.
    destruct cb; simpl.
    + unfold update. simpl. destruct (updating st); by apply (pose_shaped_ext st).
    + unfold update_visualization. simpl.
      destruct (thread_running st); by apply (pose_shaped_ext st).
    + by apply (pose_shaped_ext st).
  - destruct pressure; by apply (pose_shaped_ext st).
  - destruct (serial_thread st); [|done]. destruct (thread_running st); [|done].
    rewrite serial_read_thread_is_788. unfold serial_read_thread_788. cbn [fst snd].
    by apply read_angle_shaped.
Qed.

(** X14.  The pose keeps its shape: from a state in which [angle_data]
    holds two joints for the thumb and three for each other finger, it
    still does after any sequence of events, accepted and rejected lines
    included.  So the renderer, which looks the five fingers up by name,
    always finds them. *)
Theorem pose_stays_shaped
    (float_of_str : string → option pyfloat) (p : visualizer * string) (evs : list event) :
  pose_shaped p.1 → pose_shaped (run_from float_of_str p evs).1.
Proof.
  intros Hp. apply (run_from_invariant float_of_str (λ q, pose_shaped q.1)); [|done].
  intros ev q. apply step_pose_shaped.
Qed.

Lemma pose_stays_shaped_witness :
  pose_shaped
    (run_from Decimal.float (streaming frame_zeros, EmptyString)
       [EvSetMin; EvFpsSelected None; EvResetCalibration]).1.
Proof.
  apply (pose_stays_shaped Decimal.float (streaming frame_zeros, EmptyString)).
  unfold pose_shaped, finger_joints.
  repeat constructor; eexists; (split; [vm_compute; reflexivity | reflexivity]).
Defined.

(* ===================================================================== *)
(** * Further properties: one segment of an angle line *)
(* ===================================================================== *)

Lemma split_no_separator sep s :
  PyStr.contains sep s = false → PyStr.split sep s = [s].
Proof.
  induction s as [|c s IH]; simpl; [done|].
  intros [Hc Hs]%orb_false_iff. rewrite Hc, IH by done. done.
Qed.

Lemma split_at_separator sep h t :
  PyStr.contains sep h = false →
  PyStr.split sep (h +:+ String sep t) = h :: PyStr.split sep t.
Proof.
  induction h as [|c h IH]; simpl.
  - intros _. by rewrite Ascii.eqb_refl.
  - intros [Hc Hh]%orb_false_iff. rewrite Hc, IH by done. done.
Qed.

(** X15.  Of a segment only the text between the first [=] and the next
    one is converted: the label in front is not looked at (it may be
    empty or anything else), and whatever follows a second [=] is
    ignored.  A segment without [=] fails with [IndexError], which
    [parse_serial_data] turns into a rejected line. *)
Theorem parse_part_reads_second_field
    (float_of_str : string → option pyfloat) (label field tail : string) :
  PyStr.contains "=" label = false →
  PyStr.contains "=" field = false →
  let converted :=
    match float_of_str field with
    | Some value => inr value
    | None => inl ValueError
    end in
  parse_part float_of_str (label +:+ String "=" field) = converted
  ∧ parse_part float_of_str (label +:+ String "=" (field +:+ String "=" tail)) = converted
  ∧ parse_part float_of_str label = inl IndexError.
Proof.
  intros Hlabel Hfield. cbv zeta. unfold parse_part, index. split_and!.
  - rewrite split_at_separator, split_no_separator by done. done.
  - rewrite !split_at_separator by done. done.
  - rewrite split_no_separator by done. done.
Qed.

Lemma parse_part_reads_second_field_witness :
  let converted :=
    match Decimal.float "5" with
    | Some value => inr value
    | None => inl ValueError
    end in
  parse_part Decimal.float (EmptyString +:+ String "=" "5") = converted
  ∧ parse_part Decimal.float (EmptyString +:+ String "=" ("5" +:+ String "=" "junk"))
    = converted
  ∧ parse_part Decimal.float EmptyString = inl IndexError.
Proof.
  apply (parse_part_reads_second_field Decimal.float EmptyString "5" "junk").
  - reflexivity.
  - reflexivity.
Defined.

(* ===================================================================== *)
(** * Further properties: the extraction loop of the pressure branch *)
(* ===================================================================== *)

Lemma string_app_cons c s t : String c s +:+ t = String c (s +:+ t).
Proof. reflexivity. Qed.

Lemma string_length_app s t :
  String.length (s +:+ t) = (String.length s + String.length t)%nat.
Proof.
  induction s as [|c s IH]; [done|].
  rewrite string_app_cons. simpl. by rewrite IH.
Qed.

Lemma string_app_assoc s t u : (s +:+ t) +:+ u = s +:+ (t +:+ u).
Proof.
  induction s as [|c s IH]; [done|].
  rewrite !string_app_cons. by rewrite IH.
Qed.

Lemma take_digits_all s : Decimal.all_digits (PyStr.take_digits s) = true.
Proof.
  unfold Decimal.all_digits. induction s as [|c s IH]; simpl; [done|].
  destruct (PyStr.is_digit c) eqn:Hc; simpl; [|done]. by rewrite Hc, IH.
Qed.

Lemma match_ch_digits s ds : PyStr.match_ch s = Some ds → Decimal.all_digits ds = true.
Proof.
  unfold PyStr.match_ch.
  destruct s as [|c1 [|c2 [|d [|c4 rest]]]]; try done.
  destruct (_ && _); [|done].
  pose proof (take_digits_all rest) as Hall.
  destruct (PyStr.take_digits rest); [done|]. by intros [= <-].
Qed.

Lemma findall_from_cons skip c s :
  PyStr.findall_from skip (String c s)
  = match skip with
    | S k => PyStr.findall_from k s
    | O => match PyStr.match_ch (String c s) with
           | Some ds => ds :: PyStr.findall_from (3 + String.length ds) s
           | None => PyStr.findall_from 0 s
           end
    end.
Proof. reflexivity. Qed.

Lemma findall_from_digits skip s :
  Forall (λ ds, Decimal.all_digits ds = true) (PyStr.findall_from skip s).
Proof.
  revert skip. induction s as [|c s IH]; intros skip; [constructor|].
  rewrite findall_from_cons.
  destruct skip as [|k]; [|apply IH].
  destruct (PyStr.match_ch (String c s)) as [ds|] eqn:Hm; [|apply IH].
  constructor; [by eapply match_ch_digits | apply IH].
Qed.

Lemma int_of_digits_nonneg s : Decimal.all_digits s = true → 0 <= PyStr.int_of_digits s.
Proof.
  unfold Decimal.all_digits, PyStr.int_of_digits.
  assert (∀ l acc, forallb PyStr.is_digit l = true → 0 <= acc →
            0 <= fold_left (λ acc c, 10 * acc + (Z.of_nat (nat_of_ascii c) - 48)) l acc)
    as Hfold.
  { induction l as [|c l IH]; intros acc Hall Hacc; simpl; [done|].
    simpl in Hall. apply andb_true_iff in Hall as [Hc Hl]. apply IH; [done|].
    unfold PyStr.is_digit in Hc. apply andb_true_iff in Hc as [Hc _].
    apply Nat.leb_le in Hc. lia. }
  intros Hall. by apply Hfold.
Qed.

Lemma extract_lines_spec fuel buffer st :
  (String.length buffer <= fuel)%nat →
  ∃ consumed frames,
    buffer = consumed +:+ (extract_lines fuel buffer st).1
    ∧ PyStr.contains nl (extract_lines fuel buffer st).1 = false
    ∧ (consumed = EmptyString ∨ ∃ before, consumed = before +:+ String nl EmptyString)
    ∧ (extract_lines fuel buffer st).2 = set_data_queue (data_queue st ++ frames) st
    ∧ Forall pressure_record frames.
Proof.
  revert buffer st. induction fuel as [|fuel IH]; intros buffer st Hlen.
  { destruct buffer; [|simpl in Hlen; lia].
    exists EmptyString, []. simpl. rewrite app_nil_r.
    split_and!; [done|done|by left| |constructor]. by destruct st. }
  simpl. destruct (PyStr.split_once nl buffer) as [[line rest]|] eqn:Hsplit.
  - pose proof (split_once_Some _ _ _ Hsplit) as [-> _].
    rewrite string_length_app in Hlen. simpl in Hlen.
    set (st1 := if PyStr.startswith "ch0:" (PyStr.strip line) then _ else st).
    assert (∃ first, st1 = set_data_queue (data_queue st ++ first) st
                     ∧ Forall pressure_record first) as (first & Hst1 & Hfirst).
    { unfold st1. destruct (PyStr.startswith _ _).
      - destruct (length _ =? 5)%nat eqn:Hfive.
        + eexists [_]. split; [reflexivity|]. constructor; [|constructor].
          eexists. split; [reflexivity|]. apply Nat.eqb_eq in Hfive.
          split; [by rewrite length_fmap|].
          apply Forall_fmap.
          eapply Forall_impl; [|apply findall_from_digits].
          intros ds Hds. by apply int_of_digits_nonneg.
        + exists []. rewrite app_nil_r. split; [by destruct st | constructor].
      - exists []. rewrite app_nil_r. split; [by destruct st | constructor]. }
    destruct (IH rest st1) as (consumed & frames & Hbuffer & Hnl & Hend & Hq & Hframes);
      [lia|].
    exists (line +:+ String nl consumed), (first ++ frames).
    split_and!.
    + rewrite string_app_assoc, string_app_cons. by rewrite <-Hbuffer.
    + done.
    + right. destruct Hend as [->|[before ->]].
      * by exists line.
      * exists (line +:+ String nl before).
        by rewrite string_app_assoc, string_app_cons.
    + rewrite Hq, Hst1. simpl. by rewrite app_assoc.
    + by apply Forall_app.
  - exists EmptyString, []. simpl. rewrite app_nil_r.
    split_and!; [done|by apply split_once_None|by left| |constructor]. by destruct st.
Qed.

(** X16.  The extraction loop of the pressure branch, run on an ASCII
    buffer short enough for [int] to convert any run of digits in it (at
    most 4300 characters), comes to an end with no newline left: it has
    consumed the buffer up to and including the last newline and keeps
    exactly the text after it.  It only appends to the queue and touches
    nothing else, and each item it appends is a list of exactly five
    non-negative integers. *)
Theorem extraction_loop_complete (buffer : string) (st : visualizer) :
  is_ascii buffer = true →
  (String.length buffer <= int_max_str_digits)%nat →
  let r := extract_lines (String.length buffer) buffer st in
  ∃ consumed frames,
    buffer = consumed +:+ r.1
    ∧ PyStr.contains nl r.1 = false
    ∧ (consumed = EmptyString ∨ ∃ before, consumed = before +:+ String nl EmptyString)
    ∧ r.2 = set_data_queue (data_queue st ++ frames) st
    ∧ Forall pressure_record frames.
Proof. intros _ _. apply extract_lines_spec. lia. Qed.

Lemma extraction_loop_complete_witness :
  let buffer := chunk_1 +:+ chunk_2 +:+ "ch0:7" in
  let r := extract_lines (String.length buffer) buffer init in
  ∃ consumed frames,
    buffer = consumed +:+ r.1
    ∧ PyStr.contains nl r.1 = false
    ∧ (consumed = EmptyString ∨ ∃ before, consumed = before +:+ String nl EmptyString)
    ∧ r.2 = set_data_queue (data_queue init ++ frames) init
    ∧ Forall pressure_record frames.
Proof.
  apply (extraction_loop_complete (chunk_1 +:+ chunk_2 +:+ "ch0:7") init).
  - vm_compute. reflexivity.
  - vm_compute. lia.
Defined.

(* ===================================================================== *)
(** * Further properties: what the map can return *)
(* ===================================================================== *)

(** X17.  Bounds taken in the wrong order invert the display: when the
    stored minimum is above the stored maximum (both finite, with a
    difference that does not overflow), [map_angle] is monotonically
    non-increasing in its input, still within [0, 90]. *)
Theorem map_angle_inverted_bounds (st : visualizer) (i : nat) (a b : Qc) :
  is_calibrated st = true →
  calibration_min st !! i = Some (Fin a) →
  calibration_max st !! i = Some (Fin b) →
  (b < a)%Qc →
  (∃ d, PyFloat.sub (Fin b) (Fin a) = Fin d) →
  ∀ v1 v2, PyFloat.leb v1 v2 = true →
    ∃ r1 r2, map_angle st v1 i = inr r1 ∧ map_angle st v2 i = inr r2
             ∧ PyFloat.leb r2 r1 = true
             ∧ PyFloat.leb (PyFloat.of_Z 0) r2 = true
             ∧ PyFloat.leb r1 (PyFloat.of_Z 90) = true.
Proof.
  intros Hc Hlo Hhi Hba [d Hsub] v1 v2 Hle.
  assert (PyFloat.eqb (Fin b) (Fin a) = false) as Hne.
  { simpl. apply bool_decide_eq_false. by apply Qclt_not_eq. }
  exists (rescaled v1 (Fin a) (Fin b)), (rescaled v2 (Fin a) (Fin b)).
  split_and!; try (apply map_angle_rescaled; by try split);
    try apply rescaled_bounds.
  apply (rescaled_anti v1 v2 (Fin a) (Fin b) d Hsub); [|done].
  destruct (sub_fin _ _ _ Hsub) as (a' & b' & [= <-] & [= <-] & ->).
  apply Qclt_minus_iff. apply Qclt_minus_iff in Hba.
  assert (0 + - (b - a) = a + - b)%Qc as -> by ring. exact Hba.
Qed.

Lemma map_angle_inverted_bounds_witness :
  ∃ r1 r2,
    map_angle (calibrated frame_hundreds frame_zeros) (PyFloat.of_Z 20) 0 = inr r1
    ∧ map_angle (calibrated frame_hundreds frame_zeros) (PyFloat.of_Z 80) 0 = inr r2
    ∧ PyFloat.leb r2 r1 = true
    ∧ PyFloat.leb (PyFloat.of_Z 0) r2 = true
    ∧ PyFloat.leb r1 (PyFloat.of_Z 90) = true.
Proof.
  apply (map_angle_inverted_bounds (calibrated frame_hundreds frame_zeros) 0
           (Qc_of_Z 100) (Qc_of_Z 0)).
  - vm_compute. reflexivity.
  - float_eq.
  - float_eq.
  - by vm_compute.
  - exists (Qc_of_Z (-100)). float_eq.
  - vm_compute. reflexivity.
Defined.

(** X18.  Whatever the calibration, [map_angle] returns either the value
    it was given or a value in [0, 90]: a mapped joint angle outside
    that range can only be a raw reading that was passed through. *)
Theorem map_angle_result_cases (st : visualizer) (value r : pyfloat) (idx : nat) :
  map_angle st value idx = inr r →
  r = value
  ∨ (PyFloat.leb (PyFloat.of_Z 0) r = true ∧ PyFloat.leb r (PyFloat.of_Z 90) = true).
Proof.
  unfold map_angle, index. destruct (is_calibrated st); simpl; [|intros [= <-]; by left].
  destruct (calibration_min st !! idx) as [lo|]; simpl; [|done].
  destruct (calibration_max st !! idx) as [hi|]; simpl; [|done].
  destruct (_ || _); [intros [= <-]; by left|].
  destruct (PyFloat.eqb hi lo) eqn:He.
  - intros [= <-]. right. split; vm_compute; reflexivity.
  - rewrite (div_defined _ _ _ He). simpl. intros [= <-]. right.
    apply (clamp_bounds (rescale value lo hi)).
Qed.

Lemma map_angle_result_cases_witness :
  PyFloat.of_Z 90 = PyFloat.of_Z 150
  ∨ (PyFloat.leb (PyFloat.of_Z 0) (PyFloat.of_Z 90) = true
     ∧ PyFloat.leb (PyFloat.of_Z 90) (PyFloat.of_Z 90) = true).
Proof.
  apply (map_angle_result_cases (calibrated frame_zeros frame_hundreds)
           (PyFloat.of_Z 150) (PyFloat.of_Z 90) 0).
  float_eq.
Defined.
